(** * Remote playback coordination (lidify)

    A shallow embedding of the multi-device playback coordinator:

    - the server side, [backend/src/websocket/remotePlayback.ts]: the device
      registry [activeDevices], the per-user authority map [userActivePlayer],
      and every socket handler together with the stale-device sweep;
    - the client side, [frontend/lib/remote-playback-context.tsx] and
      [frontend/lib/remote-aware-audio-controls-context.tsx]: the derived
      [isActivePlayer] flag, the authority push handler, [transferPlayback],
      [becomeActivePlayer] and the execute-or-forward dispatch.

    Handlers are written in state-passing style: a handler takes the server
    state and returns the new state together with the messages it emitted,
    in emission order. *)

From Stdlib Require Import ZArith.
From stdpp Require Import base strings list gmap pretty.

(** ** Insertion-ordered maps

    A JavaScript [Map<string, V>] iterates in insertion order and [set] on an
    existing key keeps the key's position, so the registry is an association
    list whose keys are pairwise distinct. *)
Module JsMap.
Section ops.
Context {V : Type}.

Fixpoint get (k : string) (m : list (string * V)) : option V :=
  match m with
  | [] => None
  | (k', v) :: m' => if decide (k' = k) then Some v else get k m'
  end.

Fixpoint set (k : string) (v : V) (m : list (string * V)) : list (string * V) :=
  match m with
  | [] => [(k, v)]
  | (k', v') :: m' =>
      if decide (k' = k) then (k, v) :: m' else (k', v') :: set k v m'
  end.

Definition delete (k : string) (m : list (string * V)) : list (string * V) :=
  filter (λ kv, kv.1 ≠ k) m.

Definition values (m : list (string * V)) : list V := m.*2.

Definition keys (m : list (string * V)) : list string := m.*1.

(** Keys of a [Map] are unique. *)
Definition wf (m : list (string * V)) : Prop := NoDup (keys m).
End ops.
End JsMap.

(** ** JavaScript numbers

    Seconds and volumes are JavaScript numbers.  The coordinator stores and
    forwards them; the only operations it applies are the literals [0] and
    [1] of [device:register] and the unary minus of [skipBackward]. *)
Class JsNumber (number : Type) := {
  zero : number;
  one : number;
  neg : number → number;
}.

#[export] Instance JsNumber_Z : JsNumber Z :=
  {| zero := 0%Z; one := 1%Z; neg := Z.opp |}.

(** ** Server: [backend/src/websocket/remotePlayback.ts] *)
Module Server.
Section defs.
(** [track] is the [currentTrack] object and [any] a command payload or
    queue entry: both are opaque cargo for the server. *)
Context `{JsNumber number} {track any : Type}.

(** [interface PlaybackDevice]; [lastSeen] is a [Date], kept as its
    millisecond time value. *)
Record PlaybackDevice := mkDevice {
  socketId : string;
  deviceId : string;
  deviceName : string;
  userId : string;
  isPlaying : bool;
  currentTrack : option track;
  currentTime : number;
  volume : number;
  lastSeen : Z;
}.

(** [interface PlaybackCommand]: the [command] union, extended with
    [transferPlayback] which the server itself emits. *)
Inductive CommandName :=
| CmdPlay | CmdPause | CmdNext | CmdPrev | CmdSeek | CmdVolume
| CmdSetQueue | CmdPlayTrack | CmdTransferPlayback.

Record PlaybackCommand := mkCommand {
  targetDeviceId : string;
  command : CommandName;
  payload : option any;
}.

(** A value of a property that no interface declares: JSON, of which only
    strings are told apart. *)
Inductive JsValue :=
| JsString (s : string)
| JsOther (v : any).

(** [interface PlaybackStateUpdate].  A report arrives off the socket and is
    not checked against the interface: besides the seven declared properties
    the object may have a [deviceName] of its own, [st_deviceName], and
    further properties, [st_extra], under names other than these eight. *)
Record PlaybackStateUpdate := mkStateUpdate {
  st_deviceId : string;
  st_isPlaying : bool;
  st_currentTrack : option track;
  st_currentTime : number;
  st_volume : number;
  st_queue : option (list any);
  st_queueIndex : option number;
  st_deviceName : option JsValue;
  st_extra : list (string * JsValue);
}.

(** The two process-wide maps. *)
Record ServerState := mkServer {
  activeDevices : list (string * PlaybackDevice);
  userActivePlayer : gmap string (option string);
}.

Definition initial : ServerState :=
  {| activeDevices := []; userActivePlayer := ∅ |}.

(** *** Outbound messages *)

(** Where an emit goes: [socket.emit] and [io.to(socketId)] address one
    socket, [io.to(`user:${id}`)] the user's room, [socket.to(room)] the
    room without the sender. *)
Inductive Recipient :=
| ToSocket (sid : string)
| ToRoom (uid : string)
| ToRoomExcept (uid : string) (sender : string).

(** An entry of a [devices:list] payload; [isCurrentDevice] is only present
    in the reply to a [devices:list] request. *)
Record DeviceSummary := mkSummary {
  sum_deviceId : string;
  sum_deviceName : string;
  sum_isPlaying : bool;
  sum_currentTrack : option track;
  sum_currentTime : number;
  sum_volume : number;
  sum_isCurrentDevice : option bool;
}.

(** The payload of a [playback:remoteCommand]. *)
Inductive CommandPayload :=
| Forwarded (p : option any)
| TransferState (tr : track) (time : number) (playing : bool) (vol : number)
| Reason (reason : string).

(** [StateUpdate name state] is the object
    [{ deviceId: state.deviceId, deviceName, ...state }] of a
    [playback:stateUpdate], [name] being the [deviceName] it ends up with. *)
Inductive OutMsg :=
| DevicesList (devices : list DeviceSummary)
| StateUpdate (name : JsValue) (state : PlaybackStateUpdate)
| RemoteCommand (c : CommandName) (p : CommandPayload)
    (fromDeviceId : option string)
| StateRequest
| ActivePlayer (dev : option string)
| PlaybackError (message : string).

Definition Emit : Type := Recipient * OutMsg.

(** *** Registry and directory accessors *)

Definition getActivePlayer (st : ServerState) (uid : string) : option string :=
  default None (userActivePlayer st !! uid).

Definition setActivePlayer (uid : string) (dev : option string)
    (st : ServerState) : ServerState :=
  {| activeDevices := activeDevices st;
     userActivePlayer := <[uid := dev]> (userActivePlayer st) |}.

Definition getUserDevices (st : ServerState) (uid : string) :
    list PlaybackDevice :=
  filter (λ d, userId d = uid) (JsMap.values (activeDevices st)).

Definition getDevice (st : ServerState) (dev : string) :
    option PlaybackDevice :=
  JsMap.get dev (activeDevices st).

Definition getDeviceBySocketId (st : ServerState) (sid : string) :
    option PlaybackDevice :=
  List.find (λ d, bool_decide (socketId d = sid))
    (JsMap.values (activeDevices st)).

Definition with_devices (m : list (string * PlaybackDevice))
    (st : ServerState) : ServerState :=
  {| activeDevices := m; userActivePlayer := userActivePlayer st |}.

Definition summary (cur : option bool) (d : PlaybackDevice) : DeviceSummary :=
  {| sum_deviceId := deviceId d;
     sum_deviceName := deviceName d;
     sum_isPlaying := isPlaying d;
     sum_currentTrack := currentTrack d;
     sum_currentTime := currentTime d;
     sum_volume := volume d;
     sum_isCurrentDevice := cur |}.

Definition broadcastDeviceList (st : ServerState) (uid : string) : list Emit :=
  [(ToRoom uid, DevicesList (summary None <$> getUserDevices st uid))].

(** *** Socket handlers

    [sid] is [socket.id] and [uid] is [user.id] of the connection the
    handler was installed on. *)

Definition on_device_register (sid uid : string) (dev name : string)
    (now : Z) (st : ServerState) : ServerState * list Emit :=
  let device :=
    {| socketId := sid; deviceId := dev; deviceName := name; userId := uid;
       isPlaying := false; currentTrack := None; currentTime := zero;
       volume := one; lastSeen := now |} in
  let st' := with_devices (JsMap.set dev device (activeDevices st)) st in
  (st', broadcastDeviceList st' uid).

(** The report is spread last into the broadcast object, so a [deviceName]
    of the report replaces the registered one there, and every other property
    of the report travels on; the registry takes the four playback fields
    only. *)
Definition on_playback_state (sid uid : string) (state : PlaybackStateUpdate)
    (now : Z) (st : ServerState) : ServerState * list Emit :=
  match getDevice st (st_deviceId state) with
  | Some device =>
      if decide (userId device = uid) then
        let device' :=
          {| socketId := socketId device; deviceId := deviceId device;
             deviceName := deviceName device; userId := userId device;
             isPlaying := st_isPlaying state;
             currentTrack := st_currentTrack state;
             currentTime := st_currentTime state;
             volume := st_volume state;
             lastSeen := now |} in
        (with_devices (JsMap.set (st_deviceId state) device' (activeDevices st)) st,
         [(ToRoomExcept uid sid,
           StateUpdate
             (default (JsString (deviceName device)) (st_deviceName state))
             state)])
      else (st, [])
  | None => (st, [])
  end.

Definition on_playback_command (sid uid : string) (c : PlaybackCommand)
    (st : ServerState) : ServerState * list Emit :=
  match getDevice st (targetDeviceId c) with
  | Some targetDevice =>
      if decide (userId targetDevice ≠ uid) then
        (st, [(ToSocket sid,
               PlaybackError "Device not found or not authorized")])
      else
        (st, [(ToSocket (socketId targetDevice),
               RemoteCommand (command c) (Forwarded (payload c))
                 (deviceId <$> getDeviceBySocketId st sid))])
  | None =>
      (st, [(ToSocket sid,
             PlaybackError "Device not found or not authorized")])
  end.

Definition on_playback_requestState (sid uid : string) (dev : string)
    (st : ServerState) : ServerState * list Emit :=
  match getDevice st dev with
  | Some targetDevice =>
      if decide (userId targetDevice = uid) then
        (st, [(ToSocket (socketId targetDevice), StateRequest)])
      else (st, [])
  | None => (st, [])
  end.

Definition on_devices_list (sid uid : string) (st : ServerState) :
    ServerState * list Emit :=
  (st, [(ToSocket sid,
         DevicesList
           ((λ d, summary (Some (bool_decide (socketId d = sid))) d)
              <$> getUserDevices st uid))]).

Definition on_playback_transfer (sid uid : string) (toDeviceId : string)
    (withState : bool) (st : ServerState) : ServerState * list Emit :=
  match getDeviceBySocketId st sid, getDevice st toDeviceId with
  | Some fromDevice, Some toDevice =>
      if decide (userId toDevice ≠ uid) then
        (st, [(ToSocket sid,
               PlaybackError "Transfer failed: device not found")])
      else
        match withState, currentTrack fromDevice with
        | true, Some tr =>
            (st,
             [(ToSocket (socketId toDevice),
               RemoteCommand CmdTransferPlayback
                 (TransferState tr (currentTime fromDevice)
                    (isPlaying fromDevice) (volume fromDevice))
                 (Some (deviceId fromDevice)));
              (ToSocket (socketId fromDevice),
               RemoteCommand CmdPause (Reason "transferred") None)])
        | _, _ => (st, [])
        end
  | _, _ =>
      (st, [(ToSocket sid,
             PlaybackError "Transfer failed: device not found")])
  end.

Definition on_playback_setActivePlayer (sid uid : string)
    (dev : option string) (st : ServerState) : ServerState * list Emit :=
  let accept :=
    (setActivePlayer uid dev st, [(ToRoom uid, ActivePlayer dev)]) in
  match dev with
  | None => accept
  | Some d =>
      match getDevice st d with
      | None => accept
      | Some device =>
          if decide (userId device ≠ uid) then
            (st, [(ToSocket sid, PlaybackError "Device not authorized")])
          else accept
      end
  end.

Definition on_disconnect (sid uid : string) (st : ServerState) :
    ServerState * list Emit :=
  match getDeviceBySocketId st sid with
  | Some device =>
      let st' :=
        with_devices (JsMap.delete (deviceId device) (activeDevices st)) st in
      (st', broadcastDeviceList st' uid)
  | None => (st, [])
  end.

Definition on_device_heartbeat (sid uid : string) (dev : string) (now : Z)
    (st : ServerState) : ServerState * list Emit :=
  match getDevice st dev with
  | Some device =>
      if decide (userId device = uid) then
        let device' :=
          {| socketId := socketId device; deviceId := deviceId device;
             deviceName := deviceName device; userId := userId device;
             isPlaying := isPlaying device;
             currentTrack := currentTrack device;
             currentTime := currentTime device;
             volume := volume device;
             lastSeen := now |} in
        (with_devices (JsMap.set dev device' (activeDevices st)) st, [])
      else (st, [])
  | None => (st, [])
  end.

(** *** The stale-device sweep

    [setInterval(..., 60 * 1000)] with a threshold of five minutes before
    the time of the sweep. *)
Definition sweepIntervalMs : Z := 60 * 1000.
Definition staleAfterMs : Z := 5 * 60 * 1000.

Definition is_stale (now : Z) (d : PlaybackDevice) : bool :=
  (lastSeen d <? now - staleAfterMs)%Z.

Definition sweep (now : Z) (st : ServerState) : ServerState * list Emit :=
  (with_devices
     (foldl (λ m kd, if is_stale now kd.2 then JsMap.delete kd.1 m else m)
        (activeDevices st) (activeDevices st))
     st,
   []).

(** The registry is a [Map] keyed by device id: keys are unique and every
    entry is stored under its own [deviceId]. *)
Definition registry_ok (st : ServerState) : Prop :=
  JsMap.wf (activeDevices st)
  ∧ Forall (λ kd, deviceId kd.2 = kd.1) (activeDevices st).

(** *** Runs of the server *)

Inductive Event :=
| EvRegister (sid uid dev name : string) (now : Z)
| EvState (sid uid : string) (state : PlaybackStateUpdate) (now : Z)
| EvCommand (sid uid : string) (c : PlaybackCommand)
| EvRequestState (sid uid dev : string)
| EvDevicesList (sid uid : string)
| EvTransfer (sid uid toDeviceId : string) (withState : bool)
| EvSetActivePlayer (sid uid : string) (dev : option string)
| EvDisconnect (sid uid : string)
| EvHeartbeat (sid uid dev : string) (now : Z)
| EvSweep (now : Z).

Definition step (ev : Event) (st : ServerState) : ServerState * list Emit :=
  match ev with
  | EvRegister sid uid dev name now => on_device_register sid uid dev name now st
  | EvState sid uid state now => on_playback_state sid uid state now st
  | EvCommand sid uid c => on_playback_command sid uid c st
  | EvRequestState sid uid dev => on_playback_requestState sid uid dev st
  | EvDevicesList sid uid => on_devices_list sid uid st
  | EvTransfer sid uid to ws => on_playback_transfer sid uid to ws st
  | EvSetActivePlayer sid uid dev => on_playback_setActivePlayer sid uid dev st
  | EvDisconnect sid uid => on_disconnect sid uid st
  | EvHeartbeat sid uid dev now => on_device_heartbeat sid uid dev now st
  | EvSweep now => sweep now st
  end.

(** Events are handled one at a time; the log collects every emit in
    order. *)
Fixpoint run (evs : list Event) (st : ServerState) : ServerState * list Emit :=
  match evs with
  | [] => (st, [])
  | ev :: evs' =>
      let '(st1, out1) := step ev st in
      let '(st2, out2) := run evs' st1 in
      (st2, out1 ++ out2)
  end.

(** The later of two values, when there is a later one. *)
Definition later_of {A} (new old : option A) : option A :=
  match new with Some v => Some v | None => old end.

(** The device id carried by the last [playback:activePlayer] that went to
    the room of [uid], if there was one. *)
Definition authority_push (uid : string) (e : Emit) : option (option string) :=
  match e with
  | (ToRoom u, ActivePlayer dev) => if decide (u = uid) then Some dev else None
  | _ => None
  end.

Definition last_authority_push (uid : string) (log : list Emit) :
    option (option string) :=
  last (omap (authority_push uid) log).

End defs.
End Server.

(** ** Client agent: [frontend/lib/remote-playback-context.tsx] *)
Module Client.
Section defs.
Context {any : Type}.

(** What the provider sends to the server. *)
Inductive ClientMsg :=
| MsgCommand (targetDeviceId : string) (c : Server.CommandName)
    (payload : option any)
| MsgTransfer (toDeviceId : string) (withState : bool)
| MsgSetActivePlayer (dev : option string).

(** The provider's state: the React state cells, the refs that mirror them,
    whether the audio controls have installed their hooks, the socket's
    [connected] flag, and the [lidify_active_player_id] entry of
    [localStorage]. *)
Record Client := mkClient {
  currentDeviceId : option string;
  activePlayerId : option string;
  activePlayerIdRef : option string;
  currentDeviceIdRef : option string;
  isActivePlayerRef : bool;
  onBecomeActivePlayerRef : bool;
  onStopPlaybackRef : bool;
  connected : bool;
  persistedActivePlayerId : option string;
}.

(** The timer that [transferPlayback] arms. *)
Inductive Timer :=
| TransferTimer (toDeviceId : string) (withState : bool).

Inductive Effect :=
| CallOnBecomeActivePlayer
| CallOnStopPlayback
| SocketEmit (m : ClientMsg)
| SetTimeout (cb : Timer) (ms : Z).

(** A JavaScript condition on a [string | null]: [null] and the empty
    string are falsy. *)
Definition truthy (s : option string) : bool :=
  match s with
  | Some s => negb (String.eqb s "")
  | None => false
  end.

(** [activePlayerId === null || activePlayerId === currentDeviceId]. *)
Definition isActivePlayer (activePlayerId currentDeviceId : option string) :
    bool :=
  bool_decide (activePlayerId = None)
  || bool_decide (activePlayerId = currentDeviceId).

(** One render of the provider: the refs are brought in line with the state
    and [isActivePlayer] is derived. *)
Definition render (c : Client) : Client :=
  {| currentDeviceId := currentDeviceId c;
     activePlayerId := activePlayerId c;
     activePlayerIdRef := activePlayerId c;
     currentDeviceIdRef := currentDeviceId c;
     isActivePlayerRef := isActivePlayer (activePlayerId c) (currentDeviceId c);
     onBecomeActivePlayerRef := onBecomeActivePlayerRef c;
     onStopPlaybackRef := onStopPlaybackRef c;
     connected := connected c;
     persistedActivePlayerId := persistedActivePlayerId c |}.

(** The first render: the device id is read (or created) and the active
    player id comes from [localStorage]. *)
Definition mount (dev : string) (persisted : option string) : Client :=
  render
    {| currentDeviceId := Some dev;
       activePlayerId := persisted;
       activePlayerIdRef := None;
       currentDeviceIdRef := None;
       isActivePlayerRef := true;
       onBecomeActivePlayerRef := false;
       onStopPlaybackRef := false;
       connected := false;
       persistedActivePlayerId := persisted |}.

(** The socket's [connected] flag once the connection is up. *)
Definition connect (c : Client) : Client :=
  {| currentDeviceId := currentDeviceId c;
     activePlayerId := activePlayerId c;
     activePlayerIdRef := activePlayerIdRef c;
     currentDeviceIdRef := currentDeviceIdRef c;
     isActivePlayerRef := isActivePlayerRef c;
     onBecomeActivePlayerRef := onBecomeActivePlayerRef c;
     onStopPlaybackRef := onStopPlaybackRef c;
     connected := true;
     persistedActivePlayerId := persistedActivePlayerId c |}.

(** [setOnStopPlayback]: the audio controls install their stop hook. *)
Definition setOnStopPlayback (c : Client) : Client :=
  {| currentDeviceId := currentDeviceId c;
     activePlayerId := activePlayerId c;
     activePlayerIdRef := activePlayerIdRef c;
     currentDeviceIdRef := currentDeviceIdRef c;
     isActivePlayerRef := isActivePlayerRef c;
     onBecomeActivePlayerRef := onBecomeActivePlayerRef c;
     onStopPlaybackRef := true;
     connected := connected c;
     persistedActivePlayerId := persistedActivePlayerId c |}.

Definition getActivePlayerId (c : Client) : option string :=
  activePlayerIdRef c.
Definition getIsActivePlayer (c : Client) : bool := isActivePlayerRef c.

(** [persistActivePlayerId]. *)
Definition persistActivePlayerId (id : option string) : option string :=
  if truthy id then id else None.

(** [setActivePlayerId]: the state cell and [localStorage]; the refs follow
    at the next render. *)
Definition setActivePlayerId (id : option string) (c : Client) : Client :=
  {| currentDeviceId := currentDeviceId c;
     activePlayerId := id;
     activePlayerIdRef := activePlayerIdRef c;
     currentDeviceIdRef := currentDeviceIdRef c;
     isActivePlayerRef := isActivePlayerRef c;
     onBecomeActivePlayerRef := onBecomeActivePlayerRef c;
     onStopPlaybackRef := onStopPlaybackRef c;
     connected := connected c;
     persistedActivePlayerId := persistActivePlayerId id |}.

(** [socket.on("playback:activePlayer", ...)]. *)
Definition on_activePlayer (dev : option string) (c : Client) :
    Client * list Effect :=
  let myDeviceId := currentDeviceIdRef c in
  (setActivePlayerId dev c,
   (if bool_decide (dev = myDeviceId) && onBecomeActivePlayerRef c
    then [CallOnBecomeActivePlayer] else [])
   ++
   (if bool_decide (dev ≠ myDeviceId) && bool_decide (dev ≠ None)
    then (if onStopPlaybackRef c then [CallOnStopPlayback] else [])
    else [])).

(** [sendCommand]. *)
Definition sendCommand (targetDeviceId : string) (cmd : Server.CommandName)
    (payload : option any) (c : Client) : list Effect :=
  if connected c then [SocketEmit (MsgCommand targetDeviceId cmd payload)]
  else [].

(** [transferPlayback]: the local authority flips first, local playback is
    stopped, and the two messages leave from a timer 50 ms later. *)
Definition transferPlayback (toDeviceId : string) (withState : bool)
    (c : Client) : Client * list Effect :=
  if connected c then
    (setActivePlayerId (Some toDeviceId) c,
     (if onStopPlaybackRef c then [CallOnStopPlayback] else [])
     ++ [SetTimeout (TransferTimer toDeviceId withState) 50])
  else (c, []).

Definition fire (t : Timer) (c : Client) : list Effect :=
  match t with
  | TransferTimer toDeviceId withState =>
      if connected c then
        [SocketEmit (MsgTransfer toDeviceId withState);
         SocketEmit (MsgSetActivePlayer (Some toDeviceId))]
      else []
  end.

(** [becomeActivePlayer]. *)
Definition becomeActivePlayer (c : Client) : Client * list Effect :=
  if connected c && truthy (currentDeviceId c) then
    (setActivePlayerId (currentDeviceId c) c,
     [SocketEmit (MsgSetActivePlayer (currentDeviceId c))])
  else (c, []).

(** The messages among a list of effects, in order. *)
Definition emitted (es : list Effect) : list ClientMsg :=
  omap (λ e, match e with SocketEmit m => Some m | _ => None end) es.

(** A message sent over the connection [sid] of user [uid], as the server
    sees it. *)
Definition deliver `{JsNumber number} {track : Type} (sid uid : string)
    (m : ClientMsg) : Server.Event (number := number) (track := track) :=
  match m with
  | MsgCommand target cmd p =>
      Server.EvCommand sid uid
        {| Server.targetDeviceId := target; Server.command := cmd;
           Server.payload := p |}
  | MsgTransfer to ws => Server.EvTransfer sid uid to ws
  | MsgSetActivePlayer dev => Server.EvSetActivePlayer sid uid dev
  end.



End defs.
End Client.

(** ** Remote-aware controls:
    [frontend/lib/remote-aware-audio-controls-context.tsx] *)
Module RemoteAware.
Section defs.
(** [Track] is the player's track object. *)
Context `{JsNumber number} {Track : Type}.

(** A call into the local audio controls ([controls.pause()], ...). *)
Inductive LocalAction :=
| CtlPause | CtlResume | CtlPlay | CtlNext | CtlPrevious
| CtlSeek (time : number)
| CtlSetVolume (volume : number)
| CtlSkipForward (seconds : number)
| CtlSkipBackward (seconds : number)
| CtlPlayTrack (track : Track)
| CtlPlayTracks (tracks : list Track) (startIndex : number)
    (isVibeQueue : bool).

(** The payload objects built by the wrappers. *)
Inductive Payload :=
| PTime (time : number)
| PVolume (volume : number)
| PRelative (relative : number)
| PTrack (track : Track)
| PQueue (tracks : list Track) (startIndex : number).

Inductive Effect :=
| ConsoleLog (line : string)
| ConsoleWarn (line : string)
| Controls (a : LocalAction)
| Agent (e : Client.Effect (any := Payload)).

(** The values of [isActivePlayer] and [activePlayerId] that a callback
    closed over when it was created. *)
Record Captured := mkCaptured {
  cap_isActivePlayer : bool;
  cap_activePlayerId : option string;
}.

Definition show_bool (b : bool) : string := if b then "true" else "false".
Definition show_id (s : option string) : string := default "null" s.
Definition show_command (c : Server.CommandName) : string :=
  match c with
  | Server.CmdPlay => "play"
  | Server.CmdPause => "pause"
  | Server.CmdNext => "next"
  | Server.CmdPrev => "prev"
  | Server.CmdSeek => "seek"
  | Server.CmdVolume => "volume"
  | Server.CmdSetQueue => "setQueue"
  | Server.CmdPlayTrack => "playTrack"
  | Server.CmdTransferPlayback => "transferPlayback"
  end.

Definition sendCommand (target : string) (cmd : Server.CommandName)
    (p : option Payload) (c : Client.Client) : list Effect :=
  Agent <$> Client.sendCommand target cmd p c.

(** The string behind a truthy [string | null]. *)
Definition the_id (s : option string) : string := default "" s.

(** [executeOrForward]. *)
Definition executeOrForward (cap : Captured) (cmd : Server.CommandName)
    (localAction : LocalAction) (p : option Payload) (c : Client.Client) :
    list Effect :=
  let currentIsActivePlayer := Client.getIsActivePlayer c in
  let currentActivePlayerId := Client.getActivePlayerId c in
  ConsoleLog
    ("[RemoteAware] " +:+ show_command cmd +:+ ": isActivePlayer="
     +:+ show_bool currentIsActivePlayer +:+ ", activePlayerId="
     +:+ show_id currentActivePlayerId +:+ " (state: isActivePlayer="
     +:+ show_bool (cap_isActivePlayer cap) +:+ ", activePlayerId="
     +:+ show_id (cap_activePlayerId cap) +:+ ")")
  ::
  if currentIsActivePlayer then
    [ConsoleLog ("[RemoteAware] Executing " +:+ show_command cmd
                 +:+ " locally (this device is active)");
     Controls localAction]
  else if Client.truthy currentActivePlayerId then
    ConsoleLog ("[RemoteAware] Forwarding " +:+ show_command cmd
                +:+ " to " +:+ the_id currentActivePlayerId)
    :: sendCommand (the_id currentActivePlayerId) cmd p c
  else
    [ConsoleWarn ("[RemoteAware] No activePlayerId set, executing "
                  +:+ show_command cmd +:+ " locally as fallback");
     Controls localAction].

Definition pause cap := executeOrForward cap Server.CmdPause CtlPause None.
Definition resume cap := executeOrForward cap Server.CmdPlay CtlResume None.
Definition play cap := executeOrForward cap Server.CmdPlay CtlPlay None.
Definition next cap := executeOrForward cap Server.CmdNext CtlNext None.
Definition previous cap :=
  executeOrForward cap Server.CmdPrev CtlPrevious None.
Definition seek cap (time : number) :=
  executeOrForward cap Server.CmdSeek (CtlSeek time) (Some (PTime time)).
Definition setVolume cap (volume : number) :=
  executeOrForward cap Server.CmdVolume (CtlSetVolume volume)
    (Some (PVolume volume)).

(** The four wrappers that spell the three branches out themselves.
    [name] is the wrapper's name in its log line. *)
Definition inlined (name : string) (localAction : LocalAction)
    (cmd : Server.CommandName) (p : Payload) (c : Client.Client) :
    list Effect :=
  let currentIsActivePlayer := Client.getIsActivePlayer c in
  let currentActivePlayerId := Client.getActivePlayerId c in
  ConsoleLog
    ("[RemoteAware] " +:+ name +:+ ": isActivePlayer="
     +:+ show_bool currentIsActivePlayer +:+ ", activePlayerId="
     +:+ show_id currentActivePlayerId)
  ::
  if currentIsActivePlayer then [Controls localAction]
  else if Client.truthy currentActivePlayerId then
    sendCommand (the_id currentActivePlayerId) cmd (Some p) c
  else [Controls localAction].

(** [seconds], [startIndex] and [isVibeQueue] are the parameters after
    their defaults were applied. *)
Definition skipForward (seconds : number) :=
  inlined "skipForward" (CtlSkipForward seconds) Server.CmdSeek
    (PRelative seconds).
Definition skipBackward (seconds : number) :=
  inlined "skipBackward" (CtlSkipBackward seconds) Server.CmdSeek
    (PRelative (neg seconds)).
Definition playTrack (track : Track) :=
  inlined "playTrack" (CtlPlayTrack track) Server.CmdPlayTrack (PTrack track).
Definition playTracks (tracks : list Track) (startIndex : number)
    (isVibeQueue : bool) :=
  inlined "playTracks" (CtlPlayTracks tracks startIndex isVibeQueue)
    Server.CmdSetQueue (PQueue tracks startIndex).

(** The user-facing playback controls of the context value. *)
Inductive UserAction :=
| UPause | UResume | UPlay | UNext | UPrevious
| USeek (time : number)
| USetVolume (volume : number)
| USkipForward (seconds : number)
| USkipBackward (seconds : number)
| UPlayTrack (track : Track)
| UPlayTracks (tracks : list Track) (startIndex : number)
    (isVibeQueue : bool).

Definition invoke (cap : Captured) (a : UserAction) (c : Client.Client) :
    list Effect :=
  match a with
  | UPause => pause cap c
  | UResume => resume cap c
  | UPlay => play cap c
  | UNext => next cap c
  | UPrevious => previous cap c
  | USeek t => seek cap t c
  | USetVolume v => setVolume cap v c
  | USkipForward s => skipForward s c
  | USkipBackward s => skipBackward s c
  | UPlayTrack t => playTrack t c
  | UPlayTracks ts i v => playTracks ts i v c
  end.

(** What an outcome does besides writing to the console. *)
Definition is_console (e : Effect) : bool :=
  match e with
  | ConsoleLog _ | ConsoleWarn _ => true
  | _ => false
  end.

Definition actions (es : list Effect) : list Effect :=
  List.filter (λ e, negb (is_console e)) es.

(** The local control and the command that belong to a user action. *)
Definition local_of (a : UserAction) : LocalAction :=
  match a with
  | UPause => CtlPause
  | UResume => CtlResume
  | UPlay => CtlPlay
  | UNext => CtlNext
  | UPrevious => CtlPrevious
  | USeek t => CtlSeek t
  | USetVolume v => CtlSetVolume v
  | USkipForward s => CtlSkipForward s
  | USkipBackward s => CtlSkipBackward s
  | UPlayTrack t => CtlPlayTrack t
  | UPlayTracks ts i v => CtlPlayTracks ts i v
  end.

Definition command_of (a : UserAction) : Server.CommandName * option Payload :=
  match a with
  | UPause => (Server.CmdPause, None)
  | UResume | UPlay => (Server.CmdPlay, None)
  | UNext => (Server.CmdNext, None)
  | UPrevious => (Server.CmdPrev, None)
  | USeek t => (Server.CmdSeek, Some (PTime t))
  | USetVolume v => (Server.CmdVolume, Some (PVolume v))
  | USkipForward s => (Server.CmdSeek, Some (PRelative s))
  | USkipBackward s => (Server.CmdSeek, Some (PRelative (neg s)))
  | UPlayTrack t => (Server.CmdPlayTrack, Some (PTrack t))
  | UPlayTracks ts i _ => (Server.CmdSetQueue, Some (PQueue ts i))
  end.

End defs.
End RemoteAware.

(** ** A household used in the examples

    Alice's phone is playing a track and her laptop is idle; Bob's TV belongs
    to another user. *)
Module Scenario.
Import Server.

Definition Payload : Type := RemoteAware.Payload (number := Z) (Track := string).
Definition State : Type := ServerState (number := Z) (track := string).
Definition Ev : Type :=
  Event (number := Z) (track := string) (any := Payload).

Definition phone_report :
    PlaybackStateUpdate (number := Z) (track := string) (any := Payload) :=
  {| st_deviceId := "phone"; st_isPlaying := true;
     st_currentTrack := Some "T"; st_currentTime := 30%Z;
     st_volume := 1%Z; st_queue := None; st_queueIndex := None;
     st_deviceName := None; st_extra := [] |}.

Definition household : list Ev :=
  [EvRegister "sock-phone" "alice" "phone" "Phone" 1000;
   EvRegister "sock-laptop" "alice" "laptop" "Laptop" 2000;
   EvState "sock-phone" "alice" phone_report 3000;
   EvRegister "sock-tv" "bob" "tv" "TV" 4000].

Definition home : State := (run household initial).1.

Definition next_on_tv : PlaybackCommand (any := Payload) :=
  {| targetDeviceId := "tv"; command := CmdNext; payload := None |}.

(** The agents on Alice's two devices, connected, nothing persisted. *)
Definition phone_agent : Client.Client :=
  Client.connect (Client.mount "phone" None).
Definition laptop_agent : Client.Client :=
  Client.connect (Client.mount "laptop" None).

(** The phone's agent once the audio controls have installed the stop
    hook. *)
Definition phone_player : Client.Client := Client.setOnStopPlayback phone_agent.

(** The messages that leave the phone when its transfer timer fires. *)
Definition transfer_from_phone (to : string) (withState : bool) : list Ev :=
  Client.deliver "sock-phone" "alice"
    <$> Client.emitted (any := Payload)
          (Client.fire (Client.TransferTimer to withState) phone_agent).




(** The laptop's agent after the server pushed an empty device id. *)
Definition laptop_after_empty_push : Client.Client :=
  Client.render
    (Client.on_activePlayer (any := Payload) (Some "") laptop_agent).1.

Definition captured_at_mount : RemoteAware.Captured :=
  {| RemoteAware.cap_isActivePlayer := true;
     RemoteAware.cap_activePlayerId := None |}.
End Scenario.

(** ** Connections behind events *)
Module Conn.
Section defs.
Context {number track any : Type}.

(** The socket and user of the connection an event arrived on; the sweep runs
    on a timer. *)
Definition event_conn
    (ev : Server.Event (number := number) (track := track) (any := any)) :
    option (string * string) :=
  match ev with
  | Server.EvRegister sid uid _ _ _
  | Server.EvState sid uid _ _
  | Server.EvCommand sid uid _
  | Server.EvRequestState sid uid _
  | Server.EvDevicesList sid uid
  | Server.EvTransfer sid uid _ _
  | Server.EvSetActivePlayer sid uid _
  | Server.EvDisconnect sid uid
  | Server.EvHeartbeat sid uid _ _ => Some (sid, uid)
  | Server.EvSweep _ => None
  end.


(** Whether an event is a [playback:setActivePlayer] of user [uid]. *)
Definition sets_authority (uid : string)
    (ev : Server.Event (number := number) (track := track) (any := any)) :
    bool :=
  match ev with
  | Server.EvSetActivePlayer _ u _ => bool_decide (u = uid)
  | _ => false
  end.

End defs.
End Conn.

(** ** REST view of the registry: [backend/src/routes/remotePlayback.ts]

    The routes run behind [requireAuth]; [uid] is [req.user.id]. *)
Module Rest.
Section defs.
Context {number track : Type}.

(** A device as the routes serialize it. *)
Record DeviceInfo := mkInfo {
  info_deviceId : string;
  info_deviceName : string;
  info_isPlaying : bool;
  info_currentTrack : option track;
  info_currentTime : number;
  info_volume : number;
  info_lastSeen : Z;
}.

Record Status := mkStatus {
  available : bool;
  connectedDevices : nat;
  activePlayback : bool;
}.

(** [res.json(body)] or [res.status(code).json({ error })]. *)
Inductive Response (A : Type) :=
| Ok (body : A)
| Failed (code : Z) (error : string).
Arguments Ok {A} body.
Arguments Failed {A} code error.

Definition info
    (d : Server.PlaybackDevice (number := number) (track := track)) :
    DeviceInfo :=
  {| info_deviceId := Server.deviceId d;
     info_deviceName := Server.deviceName d;
     info_isPlaying := Server.isPlaying d;
     info_currentTrack := Server.currentTrack d;
     info_currentTime := Server.currentTime d;
     info_volume := Server.volume d;
     info_lastSeen := Server.lastSeen d |}.

(** [GET /remote-playback/devices]. *)
Definition get_devices
    (st : Server.ServerState (number := number) (track := track))
    (uid : string) :
    Response (list DeviceInfo) :=
  Ok (info <$> Server.getUserDevices st uid).

(** [GET /remote-playback/devices/:deviceId]. *)
Definition get_device
    (st : Server.ServerState (number := number) (track := track))
    (uid dev : string) :
    Response DeviceInfo :=
  match Server.getDevice st dev with
  | Some device =>
      if decide (Server.userId device ≠ uid)
      then Failed 404 "Device not found"
      else Ok (info device)
  | None => Failed 404 "Device not found"
  end.

(** [GET /remote-playback/status]. *)
Definition get_status
    (st : Server.ServerState (number := number) (track := track))
    (uid : string) :
    Response Status :=
  let devices := Server.getUserDevices st uid in
  Ok {| available := true;
        connectedDevices := length devices;
        activePlayback := existsb Server.isPlaying devices |}.

End defs.
Arguments Ok {A} body.
Arguments Failed {A} code error.
End Rest.

(** ** Connection authentication: the [io.use] middleware *)
Module Auth.

(** What an awaited call does: it returns or it throws. *)
Inductive Outcome (A : Type) :=
| Returned (a : A)
| Thrown.
Arguments Returned {A} a.
Arguments Thrown {A}.

#[export] Instance Outcome_bind : MBind Outcome := λ A B k m,
  match m with
  | Returned a => k a
  | Thrown => Thrown
  end.

(** [a || b] on two optional strings. *)
Definition or_else (a b : option string) : option string :=
  if Client.truthy a then a else b.

Section defs.
Context {User KeyId : Type}.

(** The database and session store, as the middleware sees them:
    [prisma.apiKey.findUnique] with its user, [prisma.apiKey.update] of
    [lastUsed], [redisClient.get], reading [userId] out of the parsed session
    and [prisma.user.findUnique]. *)
Context (findApiKey : string → Outcome (option (KeyId * User))).
Context (touchApiKey : KeyId → Outcome unit).
Context (redisGet : string → Outcome (option string)).
Context (sessionUserId : string → Outcome (option string)).
Context (findUser : string → Outcome (option User)).

(** The credentials of [socket.handshake]. *)
Record Handshake := mkHandshake {
  auth_apiKey : option string;
  header_x_api_key : option string;
  auth_sessionId : option string;
  auth_userId : option string;
}.

(** [next()] with [socket.user] set, or [next(new Error(message))]. *)
Inductive Verdict :=
| Accept (user : User)
| Refuse (message : string).

(** The three attempts, each yielding a user or passing on. *)
Definition by_api_key (h : Handshake) : Outcome (option (KeyId * User)) :=
  let apiKey := or_else (auth_apiKey h) (header_x_api_key h) in
  if Client.truthy apiKey then
    key ← findApiKey (default "" apiKey) ;
    match key with
    | Some (id, user) => _ ← touchApiKey id ; Returned (Some (id, user))
    | None => Returned None
    end
  else Returned None.

Definition by_session (h : Handshake) : Outcome (option User) :=
  if Client.truthy (auth_sessionId h) then
    sessionData ← redisGet ("sess:" +:+ default "" (auth_sessionId h)) ;
    if Client.truthy sessionData then
      userId ← sessionUserId (default "" sessionData) ;
      if Client.truthy userId then findUser (default "" userId)
      else Returned None
    else Returned None
  else Returned None.

Definition by_user_id (h : Handshake) : Outcome (option User) :=
  if Client.truthy (auth_userId h) then findUser (default "" (auth_userId h))
  else Returned None.

(** The middleware: the verdict and the API keys whose [lastUsed] was
    written. *)
Definition authenticate (h : Handshake) : Verdict * list KeyId :=
  match by_api_key h with
  | Thrown => (Refuse "Authentication failed", [])
  | Returned (Some (id, user)) => (Accept user, [id])
  | Returned None =>
      match by_session h with
      | Thrown => (Refuse "Authentication failed", [])
      | Returned (Some user) => (Accept user, [])
      | Returned None =>
          match by_user_id h with
          | Thrown => (Refuse "Authentication failed", [])
          | Returned (Some user) => (Accept user, [])
          | Returned None => (Refuse "Authentication required", [])
          end
      end
  end.

End defs.
End Auth.

(** ** The client's mirror of the device list

    The [devices:list] and [playback:stateUpdate] handlers of the provider,
    the derived [activePlayerState], and the capture condition of
    [RemoteVolumeCapture]. *)
Module DeviceList.
Section defs.
Context {number track any : Type}.

(** An entry of the provider's [devices] state.  [queue], [queueIndex] and
    [extra] are the properties beyond [interface RemoteDevice] that spreading
    a state update leaves on the object; the update also brings the
    [deviceName], whatever value it has. *)
Record RemoteDevice := mkRemote {
  deviceId : string;
  deviceName : Server.JsValue (any := any);
  isPlaying : bool;
  currentTrack : option track;
  currentTime : number;
  volume : number;
  isCurrentDevice : bool;
  queue : option (list any);
  queueIndex : option number;
  extra : list (string * Server.JsValue (any := any));
}.

(** [{ ...old, ...new }] on a list of properties: a property that is there
    takes the new value in place, a new one goes to the end. *)
Definition spread (old new : list (string * Server.JsValue (any := any))) :
    list (string * Server.JsValue (any := any)) :=
  foldl (λ m kv, JsMap.set kv.1 kv.2 m) old new.

(** The shape of [activePlayerState]. *)
Record Snapshot := mkSnapshot {
  snap_isPlaying : bool;
  snap_currentTrack : option track;
  snap_currentTime : number;
  snap_volume : number;
}.

(** [socket.on("devices:list", ...)]: the list is replaced and the current
    device is marked. *)
Definition on_devices_list (currentDeviceId : option string)
    (deviceList : list (Server.DeviceSummary (number := number) (track := track))) :
    list RemoteDevice :=
  (λ d,
     {| deviceId := Server.sum_deviceId d;
        deviceName := Server.JsString (Server.sum_deviceName d);
        isPlaying := Server.sum_isPlaying d;
        currentTrack := Server.sum_currentTrack d;
        currentTime := Server.sum_currentTime d;
        volume := Server.sum_volume d;
        isCurrentDevice :=
          bool_decide (Some (Server.sum_deviceId d) = currentDeviceId);
        queue := None;
        queueIndex := None;
        extra := [] |}) <$> deviceList.

(** [socket.on("playback:stateUpdate", ...)]: the entry with the reporting
    device's id becomes [{ ...d, ...state, isCurrentDevice }], every other
    entry is kept.  [name] and [state] are the two arguments of
    [Server.StateUpdate]. *)
Definition on_stateUpdate (currentDeviceId : option string)
    (name : Server.JsValue (any := any))
    (state : Server.PlaybackStateUpdate (number := number) (track := track)
               (any := any))
    (prev : list RemoteDevice) : list RemoteDevice :=
  (λ d,
     if bool_decide (deviceId d = Server.st_deviceId state) then
       {| deviceId := Server.st_deviceId state;
          deviceName := name;
          isPlaying := Server.st_isPlaying state;
          currentTrack := Server.st_currentTrack state;
          currentTime := Server.st_currentTime state;
          volume := Server.st_volume state;
          isCurrentDevice := bool_decide (Some (deviceId d) = currentDeviceId);
          queue := Server.later_of (Server.st_queue state) (queue d);
          queueIndex := Server.later_of (Server.st_queueIndex state)
                          (queueIndex d);
          extra :=
            spread (extra d)
              (filter (λ kv, kv.1 ≠ "isCurrentDevice")
                 (Server.st_extra state)) |}
     else d) <$> prev.

(** [activePlayerState]: the active device's entry, when another device is
    the active player and it is listed. *)
Definition activePlayerState (activePlayerId currentDeviceId : option string)
    (devices : list RemoteDevice) : option Snapshot :=
  if Client.truthy activePlayerId
     && bool_decide (activePlayerId ≠ currentDeviceId)
  then
    match List.find (λ d, bool_decide (Some (deviceId d) = activePlayerId))
            devices with
    | Some activeDevice =>
        Some {| snap_isPlaying := isPlaying activeDevice;
                snap_currentTrack := currentTrack activeDevice;
                snap_currentTime := currentTime activeDevice;
                snap_volume := volume activeDevice |}
    | None => None
    end
  else None.

(** [shouldCapture] of [RemoteVolumeCapture]. *)
Definition shouldCapture (isActivePlayer : bool)
    (activePlayerId : option string) (state : option Snapshot) : bool :=
  negb isActivePlayer
  && Client.truthy activePlayerId
  && bool_decide (is_Some (state ≫= snap_currentTrack)).

(** The entry of a device as a fresh [devices:list] would show it. *)
Definition listed (currentDeviceId : option string)
    (d : Server.PlaybackDevice (number := number) (track := track)) :
    RemoteDevice :=
  {| deviceId := Server.deviceId d;
     deviceName := Server.JsString (Server.deviceName d);
     isPlaying := Server.isPlaying d;
     currentTrack := Server.currentTrack d;
     currentTime := Server.currentTime d;
     volume := Server.volume d;
     isCurrentDevice := bool_decide (Some (Server.deviceId d) = currentDeviceId);
     queue := None;
     queueIndex := None;
     extra := [] |}.

(** An entry reduced to the properties of [interface RemoteDevice]. *)
Definition declared (d : RemoteDevice) : RemoteDevice :=
  {| deviceId := deviceId d;
     deviceName := deviceName d;
     isPlaying := isPlaying d;
     currentTrack := currentTrack d;
     currentTime := currentTime d;
     volume := volume d;
     isCurrentDevice := isCurrentDevice d;
     queue := None;
     queueIndex := None;
     extra := [] |}.

(** The entry of device [dev] shown under the name [name]. *)
Definition with_name (dev : string) (name : Server.JsValue (any := any))
    (d : RemoteDevice) : RemoteDevice :=
  if bool_decide (deviceId d = dev) then
    {| deviceId := deviceId d;
       deviceName := name;
       isPlaying := isPlaying d;
       currentTrack := currentTrack d;
       currentTime := currentTime d;
       volume := volume d;
       isCurrentDevice := isCurrentDevice d;
       queue := queue d;
       queueIndex := queueIndex d;
       extra := extra d |}
  else d.

End defs.
End DeviceList.

(** ** Browser storage: the helpers of the provider *)
Module Storage.

(** [window]: its [localStorage] and [navigator.userAgent]. *)
Record Window := mkWindow {
  localStorage : gmap string string;
  userAgent : string;
}.

Definition setItem (k v : string) (w : Window) : Window :=
  {| localStorage := <[k := v]> (localStorage w); userAgent := userAgent w |}.

Definition removeItem (k : string) (w : Window) : Window :=
  {| localStorage := delete k (localStorage w); userAgent := userAgent w |}.

Definition getItem (k : string) (w : Window) : option string :=
  localStorage w !! k.

(** [getOrCreateDeviceId]; [None] stands for [typeof window === "undefined"],
    [now] is [Date.now()] and [rand] is
    [Math.random().toString(36).substr(2, 9)]. *)
Definition getOrCreateDeviceId (now : N) (rand : string) (w : option Window) :
    string * option Window :=
  match w with
  | None => ("", None)
  | Some w =>
      let deviceId := getItem "lidify_device_id" w in
      if Client.truthy deviceId then (default "" deviceId, Some w)
      else
        let deviceId := "device_" +:+ pretty now +:+ "_" +:+ rand in
        (deviceId, Some (setItem "lidify_device_id" deviceId w))
  end.

(** ASCII lower case, the case folding of a [/.../i] test on an ASCII
    pattern. *)
Definition lower (c : Ascii.ascii) : Ascii.ascii :=
  let n := Ascii.N_of_ascii c in
  if ((65 <=? n) && (n <=? 90))%N then Ascii.ascii_of_N (n + 32) else c.

Fixpoint lower_string (s : string) : string :=
  match s with
  | EmptyString => EmptyString
  | String c s' => String (lower c) (lower_string s')
  end.

Fixpoint includes (needle hay : string) : bool :=
  String.prefix needle hay
  || match hay with
     | EmptyString => false
     | String _ hay' => includes needle hay'
     end.

(** [/pattern/i.test(ua)] for a literal pattern. *)
Definition test_i (pattern ua : string) : bool :=
  includes (lower_string pattern) (lower_string ua).

(** [getDefaultDeviceName]. *)
Definition getDefaultDeviceName (w : option Window) : string :=
  match w with
  | None => "Unknown Device"
  | Some w =>
      let savedName := getItem "lidify_device_name" w in
      if Client.truthy savedName then default "" savedName
      else
        let ua := userAgent w in
        if test_i "Android TV" ua || test_i "BRAVIA" ua || test_i "SmartTV" ua
        then "Smart TV"
        else if test_i "Android" ua then "Android Device"
        else if test_i "iPad" ua then "iPad"
        else if test_i "iPhone" ua then "iPhone"
        else if test_i "Mac" ua then "Mac"
        else if test_i "Windows" ua then "Windows PC"
        else if test_i "Linux" ua then "Linux PC"
        else "Web Browser"
  end.

(** [getPersistedActivePlayerId] and [persistActivePlayerId]. *)
Definition getPersistedActivePlayerId (w : option Window) : option string :=
  w ≫= getItem "lidify_active_player_id".

Definition persistActivePlayerId (id : option string) (w : option Window) :
    option Window :=
  (λ w, if Client.truthy id
        then setItem "lidify_active_player_id" (default "" id) w
        else removeItem "lidify_active_player_id" w) <$> w.

End Storage.

(** ** Registration, heartbeat and state reports of the provider *)
Module Setup.
Section defs.
Context {number track any : Type}.

(** The messages of the provider that carry no authority. *)
Inductive SetupMsg :=
| MsgRegister (deviceId deviceName : string)
| MsgDevicesList
| MsgHeartbeat (deviceId : string)
| MsgState (state : Server.PlaybackStateUpdate (number := number)
                      (track := track) (any := any)).

(** The heartbeat timer: every 30 seconds. *)
Definition heartbeatIntervalMs : Z := 30000.

(** [socket.on("connect", ...)]: [currentDeviceId] is non-empty when the
    effect that opens the socket runs. *)
Definition on_connect (currentDeviceId currentDeviceName : string) :
    list SetupMsg :=
  [MsgRegister currentDeviceId currentDeviceName; MsgDevicesList].

(** One tick of the heartbeat timer. *)
Definition heartbeat (connected : bool) (currentDeviceId : option string) :
    list SetupMsg :=
  if connected && Client.truthy currentDeviceId
  then [MsgHeartbeat (default "" currentDeviceId)]
  else [].

(** [setDeviceName]: the new name is stored and the device registers again
    under it. *)
Definition setDeviceName (name : string) (c : Client.Client)
    (w : Storage.Window) : string * Storage.Window * list SetupMsg :=
  (name, Storage.setItem "lidify_device_name" name w,
   if Client.connected c && Client.truthy (Client.currentDeviceId c)
   then [MsgRegister (default "" (Client.currentDeviceId c)) name]
   else []).

(** [broadcastState]: the report carries the device's own id. *)
Definition broadcastState (c : Client.Client) (playing : bool)
    (tr : option track) (time vol : number) (queue : option (list any))
    (queueIndex : option number) : list SetupMsg :=
  if Client.connected c && Client.truthy (Client.currentDeviceId c) then
    [MsgState
       {| Server.st_deviceId := default "" (Client.currentDeviceId c);
          Server.st_isPlaying := playing;
          Server.st_currentTrack := tr;
          Server.st_currentTime := time;
          Server.st_volume := vol;
          Server.st_queue := queue;
          Server.st_queueIndex := queueIndex;
          Server.st_deviceName := None;
          Server.st_extra := [] |}]
  else [].

(** [refreshDevices]. *)
Definition refreshDevices (c : Client.Client) : list SetupMsg :=
  if Client.connected c then [MsgDevicesList] else [].

(** A message over the connection [sid] of user [uid], handled at time
    [now]. *)
Definition deliver (sid uid : string) (now : Z) (m : SetupMsg) :
    Server.Event (number := number) (track := track) (any := any) :=
  match m with
  | MsgRegister dev name => Server.EvRegister sid uid dev name now
  | MsgDevicesList => Server.EvDevicesList sid uid
  | MsgHeartbeat dev => Server.EvHeartbeat sid uid dev now
  | MsgState state => Server.EvState sid uid state now
  end.

(** One period of a connected client's life as the server sees it: the
    heartbeat of the tick at time [t], then the sweeps that run before the
    next tick. *)
Definition keepalive_round (sid uid : string) (currentDeviceId : option string)
    (r : Z * list Z) :
    list (Server.Event (number := number) (track := track) (any := any)) :=
  (deliver sid uid r.1 <$> heartbeat true currentDeviceId)
  ++ (Server.EvSweep <$> r.2).

End defs.
End Setup.

(** ** The device selector: [frontend/components/player/DeviceSelector.tsx] *)
Module Selector.
Section defs.
Context {any : Type}.

(** [handleDeviceClick] for the entry with id [deviceId]. *)
Definition handleDeviceClick (deviceId : string) (c : Client.Client) :
    Client.Client * list (Client.Effect (any := any)) :=
  if bool_decide (Some deviceId = Client.currentDeviceId c) then
    if negb (Client.isActivePlayer (Client.activePlayerId c)
               (Client.currentDeviceId c))
    then Client.becomeActivePlayer c
    else (c, [])
  else Client.transferPlayback deviceId true c.

(** [handleRemotePlayPause] for an entry of the list. *)
Definition handleRemotePlayPause (deviceId : string) (isPlaying : bool)
    (c : Client.Client) : list (Client.Effect (any := any)) :=
  Client.sendCommand deviceId
    (if isPlaying then Server.CmdPause else Server.CmdPlay) None c.

(** Everything a client sends while handling an event: what it emits at
    once and what its timers emit when they fire, the connection staying as
    it is. *)
Definition sends (c : Client.Client) (es : list (Client.Effect (any := any))) :
    list (Client.ClientMsg (any := any)) :=
  es ≫= λ e,
    match e with
    | Client.SocketEmit m => [m]
    | Client.SetTimeout t _ => Client.emitted (Client.fire t c)
    | _ => []
    end.

(** A client handles an authority push and renders. *)
Definition pushed (dev : option string) (c : Client.Client) : Client.Client :=
  Client.render (Client.on_activePlayer (any := any) dev c).1.

End defs.
End Selector.

(** ** From a control to the wire *)
Module Flow.
Section defs.
Context `{JsNumber number} {Track : Type}.


End defs.
End Flow.

(** ** More of the household: credentials and a browser *)
Module Household.
Import Scenario.

(** Two accounts, one API key of Alice's, one stored session of Bob's. *)
Inductive Account := Alice | Bob.

Definition findApiKey (key : string) : Auth.Outcome (option (nat * Account)) :=
  if String.eqb key "key-alice" then Auth.Returned (Some (7%nat, Alice))
  else if String.eqb key "key-broken" then Auth.Thrown
  else Auth.Returned None.

Definition touchApiKey (id : nat) : Auth.Outcome unit := Auth.Returned ().

Definition redisGet (key : string) : Auth.Outcome (option string) :=
  if String.eqb key "sess:s-bob" then Auth.Returned (Some "{bob}")
  else if String.eqb key "sess:s-garbled" then Auth.Returned (Some "garbled")
  else Auth.Returned None.

Definition sessionUserId (data : string) : Auth.Outcome (option string) :=
  if String.eqb data "{bob}" then Auth.Returned (Some "bob")
  else Auth.Thrown.

Definition findUser (id : string) : Auth.Outcome (option Account) :=
  if String.eqb id "alice" then Auth.Returned (Some Alice)
  else if String.eqb id "bob" then Auth.Returned (Some Bob)
  else Auth.Returned None.

Definition authenticate :=
  Auth.authenticate findApiKey touchApiKey redisGet sessionUserId findUser.

(** Alice's API key together with Bob's session id. *)
Definition key_and_session : Auth.Handshake :=
  {| Auth.auth_apiKey := Some "key-alice";
     Auth.header_x_api_key := None;
     Auth.auth_sessionId := Some "s-bob";
     Auth.auth_userId := None |}.

Definition no_credentials : Auth.Handshake :=
  {| Auth.auth_apiKey := None;
     Auth.header_x_api_key := Some "";
     Auth.auth_sessionId := None;
     Auth.auth_userId := Some "" |}.

(** A key whose lookup fails, and a session whose stored data does not
    parse. *)
Definition broken_key : Auth.Handshake :=
  {| Auth.auth_apiKey := Some "key-broken";
     Auth.header_x_api_key := None;
     Auth.auth_sessionId := Some "s-bob";
     Auth.auth_userId := Some "alice" |}.

Definition garbled_session : Auth.Handshake :=
  {| Auth.auth_apiKey := None;
     Auth.header_x_api_key := None;
     Auth.auth_sessionId := Some "s-garbled";
     Auth.auth_userId := Some "alice" |}.

(** A phone browser that has never run the player. *)
Definition phone_browser : Storage.Window :=
  {| Storage.localStorage := ∅;
     Storage.userAgent :=
       "Mozilla/5.0 (iPhone; CPU iPhone OS 17_0 like Mac OS X)" |}.


(** A later report of the phone: paused at second 45. *)
Definition phone_paused :
    Server.PlaybackStateUpdate (number := Z) (track := string) (any := Payload) :=
  {| Server.st_deviceId := "phone"; Server.st_isPlaying := false;
     Server.st_currentTrack := Some "T"; Server.st_currentTime := 45%Z;
     Server.st_volume := 1%Z; Server.st_queue := None;
     Server.st_queueIndex := None;
     Server.st_deviceName := None; Server.st_extra := [] |}.

(** The same report with a [deviceName] and two more properties of its
    own. *)
Definition phone_renamed :
    Server.PlaybackStateUpdate (number := Z) (track := string) (any := Payload) :=
  {| Server.st_deviceId := "phone"; Server.st_isPlaying := false;
     Server.st_currentTrack := Some "T"; Server.st_currentTime := 45%Z;
     Server.st_volume := 1%Z; Server.st_queue := None;
     Server.st_queueIndex := None;
     Server.st_deviceName := Some (Server.JsString "Kitchen");
     Server.st_extra :=
       [("isCurrentDevice", Server.JsString "yes");
        ("shuffle", Server.JsString "on")] |}.

(** A watch registers on a socket of its own, the phone registers, and the
    watch is then registered again over the phone's socket: the entry of the
    watch is taken over where it stands, ahead of the phone. *)
Definition watch_takeover : list Ev :=
  [Server.EvRegister "sock-watch" "alice" "watch" "Watch" 1000;
   Server.EvRegister "sock-phone" "alice" "phone" "Phone" 2000;
   Server.EvRegister "sock-phone" "alice" "watch" "Watch" 3000].

Definition shared_socket : State := (Server.run watch_takeover Server.initial).1.



(** A report that claims to come from Bob's TV. *)
Definition tv_forged :
    Server.PlaybackStateUpdate (number := Z) (track := string) (any := Payload) :=
  {| Server.st_deviceId := "tv"; Server.st_isPlaying := true;
     Server.st_currentTrack := Some "X"; Server.st_currentTime := 0%Z;
     Server.st_volume := 1%Z; Server.st_queue := None;
     Server.st_queueIndex := None;
     Server.st_deviceName := None; Server.st_extra := [] |}.

(** The household after Alice made her phone the active player. *)
Definition home_phone_active : State :=
  (Server.run
     (household ++ [Server.EvSetActivePlayer "sock-phone" "alice" (Some "phone")])
     Server.initial).1.

(** The device list on the laptop, built from the household's listing. *)
Definition laptop_list :
    list (DeviceList.RemoteDevice (number := Z) (track := string)
            (any := Payload)) :=
  DeviceList.on_devices_list (Some "laptop")
    (Server.summary None <$> Server.getUserDevices home "alice").

(** A report from a tablet that is in nobody's list. *)
Definition tablet_report :
    Server.PlaybackStateUpdate (number := Z) (track := string) (any := Payload) :=
  {| Server.st_deviceId := "tablet"; Server.st_isPlaying := true;
     Server.st_currentTrack := Some "X"; Server.st_currentTime := 0%Z;
     Server.st_volume := 1%Z; Server.st_queue := None;
     Server.st_queueIndex := None;
     Server.st_deviceName := None; Server.st_extra := [] |}.

(** The laptop heartbeats at seconds 10 and 40; sweeps run in between and
    up to five minutes after the later heartbeat. *)
Definition laptop_rounds : list (Z * list Z) :=
  [(10000%Z, [20000%Z; 30000%Z]); (40000%Z, [302500%Z; 340000%Z])].

End Household.

(** * Properties *)

(** ** Facts about insertion-ordered maps *)
Section jsmap_facts.
Context {V : Type}.
Implicit Types (m : list (string * V)) (k : string) (v : V).

Lemma jsmap_get_set_eq m k v : JsMap.get k (JsMap.set k v m) = Some v.
Proof.
  induction m as [|[k' v'] m IH]; simpl; repeat (case_decide; simpl);
    congruence.
Qed.

Lemma jsmap_get_set_ne m k k' v :
  k ≠ k' → JsMap.get k' (JsMap.set k v m) = JsMap.get k' m.
Proof.
  intros Hne.
  induction m as [|[k0 v0] m IH]; simpl; repeat (case_decide; simpl);
    congruence.
Qed.

Lemma jsmap_keys_set m k v :
  JsMap.keys (JsMap.set k v m) =
  if decide (k ∈ JsMap.keys m) then JsMap.keys m else JsMap.keys m ++ [k].
Proof.
  unfold JsMap.keys. induction m as [|[k0 v0] m IH].
  - rewrite decide_False; [done | apply not_elem_of_nil].
  - cbn [JsMap.set]. destruct (decide (k0 = k)) as [->|Hk0].
    + rewrite decide_True; [done | rewrite fmap_cons; apply list_elem_of_here].
    + rewrite !fmap_cons, IH. cbn [fst].
      destruct (decide (k ∈ m.*1)) as [Hin|Hnin].
      * rewrite decide_True; [done | by apply list_elem_of_further].
      * rewrite decide_False; [done |].
        intros [?|?]%elem_of_cons; congruence.
Qed.

Lemma jsmap_wf_set m k v : JsMap.wf m → JsMap.wf (JsMap.set k v m).
Proof.
  unfold JsMap.wf. intros Hwf. rewrite jsmap_keys_set.
  case_decide; [done |].
  apply NoDup_app. split_and!; [done | | apply NoDup_singleton].
  intros x Hx ->%list_elem_of_singleton. done.
Qed.

Lemma jsmap_Forall_set (P : string * V → Prop) m k v :
  P (k, v) → Forall P m → Forall P (JsMap.set k v m).
Proof.
  intros Hkv. induction 1 as [|[k0 v0] m Hx Hm IH]; simpl.
  - by constructor.
  - case_decide; constructor; done.
Qed.

Lemma jsmap_wf_filter (P : string * V → Prop) `{!∀ x, Decision (P x)} m :
  JsMap.wf m → JsMap.wf (filter P m).
Proof.
  unfold JsMap.wf, JsMap.keys.
  induction m as [|[k0 v0] m IH]; [done |].
  rewrite fmap_cons, NoDup_cons. intros [Hnin Hnd].
  rewrite filter_cons. case_decide; [| by apply IH].
  rewrite fmap_cons. apply NoDup_cons. split; [| by apply IH].
  intros ([k1 v1] & Heq & Hin%list_elem_of_filter)%list_elem_of_fmap.
  simpl in Heq. subst k1. apply Hnin.
  apply list_elem_of_fmap. exists (k0, v1). split; [done | apply Hin].
Qed.

Lemma jsmap_wf_delete m k : JsMap.wf m → JsMap.wf (JsMap.delete k m).
Proof. apply jsmap_wf_filter. Qed.

Lemma jsmap_Forall_delete (P : string * V → Prop) m k :
  Forall P m → Forall P (JsMap.delete k m).
Proof.
  rewrite !Forall_forall. intros HP x [_ Hx]%list_elem_of_filter. by apply HP.
Qed.

Lemma jsmap_get_delete_ne m k k' :
  k ≠ k' → JsMap.get k' (JsMap.delete k m) = JsMap.get k' m.
Proof.
  intros Hne. unfold JsMap.delete.
  induction m as [|[k0 v0] m IH]; [done |].
  rewrite filter_cons. simpl. repeat (case_decide; simpl); congruence.
Qed.

Lemma jsmap_get_delete_eq m k : JsMap.get k (JsMap.delete k m) = None.
Proof.
  unfold JsMap.delete. induction m as [|[k0 v0] m IH]; [done |].
  rewrite filter_cons. simpl. repeat (case_decide; simpl); congruence.
Qed.

Lemma jsmap_get_Some_elem m k v : JsMap.get k m = Some v → (k, v) ∈ m.
Proof.
  induction m as [|[k0 v0] m IH]; simpl; [done |].
  case_decide.
  - intros [= ->]. subst. apply list_elem_of_here.
  - intros. by apply list_elem_of_further, IH.
Qed.

Lemma jsmap_elem_get m k v : JsMap.wf m → (k, v) ∈ m → JsMap.get k m = Some v.
Proof.
  unfold JsMap.wf, JsMap.keys.
  induction m as [|[k0 v0] m IH]; simpl.
  - by intros _ ?%elem_of_nil.
  - rewrite NoDup_cons. intros [Hnin Hnd] [Heq|Hin]%elem_of_cons.
    + simplify_eq. by rewrite decide_True.
    + case_decide as Hk; [| by apply IH].
      subst k0. exfalso. apply Hnin.
      apply list_elem_of_fmap. by exists (k, v).
Qed.

Lemma filter_ext_elem (P Q : string * V → Prop)
    `{!∀ x, Decision (P x), !∀ x, Decision (Q x)} m :
  (∀ x, x ∈ m → P x ↔ Q x) → filter P m = filter Q m.
Proof.
  induction m as [|x m IH]; [done |]. intros Hext.
  rewrite !filter_cons, IH.
  - destruct (decide (P x)) as [HP|HP], (decide (Q x)) as [HQ|HQ];
      try done; exfalso.
    + apply HQ, Hext; [apply list_elem_of_here | done].
    + apply HP, Hext; [apply list_elem_of_here | done].
  - intros y Hy. apply Hext. by apply list_elem_of_further.
Qed.

(** The keys that a sweep over [todo] deletes. *)
Lemma jsmap_sweep_foldl (stale : V → bool) (todo acc : list (string * V)) :
  foldl (λ acc kd, if stale kd.2 then JsMap.delete kd.1 acc else acc)
    acc todo =
  filter (λ kd, kd.1 ∉ JsMap.keys (filter (λ kd, stale kd.2 = true) todo))
    acc.
Proof.
  revert acc. induction todo as [|[k d] todo IH]; intros acc.
  - simpl. symmetry. erewrite filter_ext_elem with (Q := λ _, True).
    + clear. induction acc as [|x acc IH]; [done |].
      by rewrite filter_cons_True, IH.
    + intros x _. split; [done | intros _; apply not_elem_of_nil].
  - cbn [foldl snd fst]. rewrite IH, filter_cons. cbn [snd].
    destruct (stale d) eqn:Hd.
    + rewrite decide_True by done. unfold JsMap.delete.
      rewrite list_filter_filter. apply filter_ext_elem.
      intros [k1 d1] _. unfold JsMap.keys. rewrite fmap_cons. cbn [fst].
      rewrite not_elem_of_cons. tauto.
    + rewrite decide_False by (by intros ?). done.
Qed.

(** Deleting while iterating, as the sweep does, is a filter on a
    well-formed map. *)
Lemma jsmap_sweep_filter (stale : V → bool) m :
  JsMap.wf m →
  foldl (λ acc kd, if stale kd.2 then JsMap.delete kd.1 acc else acc) m m =
  filter (λ kd, stale kd.2 = false) m.
Proof.
  intros Hwf. rewrite jsmap_sweep_foldl. apply filter_ext_elem.
  intros [k d] Hkd. cbn [fst snd]. unfold JsMap.keys. split.
  - intros Hnin. destruct (stale d) eqn:Hd; [| done].
    exfalso. apply Hnin. apply list_elem_of_fmap. exists (k, d).
    split; [done |]. by apply list_elem_of_filter.
  - intros Hd ([k1 d1] & Hk & [Hst Hin]%list_elem_of_filter)%list_elem_of_fmap.
    cbn [fst snd] in *. subst k1.
    pose proof (jsmap_elem_get _ _ _ Hwf Hkd) as E1.
    pose proof (jsmap_elem_get _ _ _ Hwf Hin) as E2.
    congruence.
Qed.
End jsmap_facts.

(** ** The registry invariant *)
Section registry_invariant.
Context `{JsNumber number} {track any : Type}.
Import Server.
Implicit Types (st : ServerState (number := number) (track := track)).
Implicit Types (ev : Event (number := number) (track := track) (any := any)).
Implicit Types
  (evs : list (Event (number := number) (track := track) (any := any))).

Lemma registry_ok_initial :
  registry_ok (initial (number := number) (track := track)).
Proof. split; [apply NoDup_nil_2 | apply Forall_nil_2]. Qed.

Lemma getDevice_deviceId st k d :
  registry_ok st → getDevice st k = Some d → deviceId d = k.
Proof.
  intros [_ Hkey] Hget%jsmap_get_Some_elem.
  rewrite Forall_forall in Hkey. apply (Hkey _ Hget).
Qed.

Lemma getDeviceBySocketId_Some st sid d :
  getDeviceBySocketId st sid = Some d →
  socketId d = sid ∧ (∃ k, (k, d) ∈ activeDevices st).
Proof.
  unfold getDeviceBySocketId. intros Hfind.
  pose proof (find_some _ _ Hfind) as [Hin Hsid].
  split; [by apply bool_decide_eq_true in Hsid |].
  apply list_elem_of_In, list_elem_of_fmap in Hin as ([k d'] & -> & Hin).
  by exists k.
Qed.

Lemma registry_ok_set st k d :
  registry_ok st → deviceId d = k →
  registry_ok (with_devices (JsMap.set k d (activeDevices st)) st).
Proof.
  intros [Hwf Hkey] Hd. split; simpl.
  - by apply jsmap_wf_set.
  - by apply jsmap_Forall_set.
Qed.

Lemma registry_ok_filter st (P : string * PlaybackDevice → Prop)
    `{!∀ x, Decision (P x)} :
  registry_ok st → registry_ok (with_devices (filter P (activeDevices st)) st).
Proof.
  intros [Hwf Hkey]. split; simpl.
  - by apply jsmap_wf_filter.
  - rewrite Forall_forall in *. intros x [_ Hx]%list_elem_of_filter. auto.
Qed.

Lemma step_registry_ok ev st :
  registry_ok st → registry_ok (step ev st).1.
Proof.
  intros Hok. destruct ev; simpl.
  - by apply registry_ok_set.
  - unfold on_playback_state.
    destruct (getDevice st (st_deviceId state)) as [d|] eqn:Hd; [| done].
    case_decide; [| done]. simpl.
    apply registry_ok_set; [done |]. simpl. by eapply getDevice_deviceId.
  - unfold on_playback_command.
    destruct (getDevice st _); [case_decide |]; done.
  - unfold on_playback_requestState.
    destruct (getDevice st _); [case_decide |]; done.
  - done.
  - unfold on_playback_transfer.
    destruct (getDeviceBySocketId st sid) as [f|]; [| done].
    destruct (getDevice st toDeviceId) as [t|]; [| done].
    case_decide; [done |]. by destruct withState, (currentTrack f).
  - unfold on_playback_setActivePlayer.
    destruct dev as [d|]; [| done].
    destruct (getDevice st d); [case_decide |]; done.
  - unfold on_disconnect.
    destruct (getDeviceBySocketId st sid) as [d|]; [| done].
    simpl. by apply registry_ok_filter.
  - unfold on_device_heartbeat.
    destruct (getDevice st dev) as [d|] eqn:Hd; [| done].
    case_decide; [| done]. simpl.
    apply registry_ok_set; [done |]. simpl. by eapply getDevice_deviceId.
  - unfold sweep. simpl. rewrite jsmap_sweep_foldl.
    by apply registry_ok_filter.
Qed.

Lemma run_registry_ok evs st :
  registry_ok st → registry_ok (run evs st).1.
Proof.
  revert st. induction evs as [|ev evs IH]; intros st Hok; [done |].
  simpl. pose proof (step_registry_ok ev st Hok) as Hstep.
  destruct (step ev st) as [st1 out1]. specialize (IH st1 Hstep).
  by destruct (run evs st1) as [st2 out2].
Qed.

(** Every state the server can reach satisfies the invariant. *)
Lemma reachable_registry_ok evs : registry_ok (run evs initial).1.
Proof. apply run_registry_ok, registry_ok_initial. Qed.
End registry_invariant.

(** ** Device registry *)
Section registry.
Context `{JsNumber number} {track any : Type}.
Import Server.
Implicit Types (st : ServerState (number := number) (track := track)).
Implicit Types (d : PlaybackDevice (number := number) (track := track)).

Lemma filter_comm_devices (P Q : PlaybackDevice → Prop)
    `{!∀ x, Decision (P x), !∀ x, Decision (Q x)}
    (l : list (PlaybackDevice (number := number) (track := track))) :
  filter P (filter Q l) = filter Q (filter P l).
Proof.
  rewrite !list_filter_filter. apply list_filter_iff. intros x. tauto.
Qed.

Lemma no_entry_for_absent_key (m : list (string * PlaybackDevice)) k :
  Forall (λ kd, deviceId kd.2 = kd.1) m → k ∉ JsMap.keys m →
  filter (λ d, deviceId d = k) (JsMap.values m) = [].
Proof.
  unfold JsMap.keys, JsMap.values.
  induction 1 as [|[k0 d0] m Hd0 Hm IH]; [done |].
  rewrite !fmap_cons. cbn [fst snd] in *. intros Hnin.
  apply not_elem_of_cons in Hnin as [Hne Hnin].
  rewrite filter_cons_False by congruence. by apply IH.
Qed.

(** A registered device id has exactly one entry. *)
Lemma one_entry_per_device st k d :
  registry_ok st → getDevice st k = Some d →
  filter (λ x, deviceId x = k) (JsMap.values (activeDevices st)) = [d].
Proof.
  unfold getDevice, registry_ok, JsMap.wf.
  generalize (activeDevices st). clear st.
  intros m [Hwf Hkey]. induction Hkey as [|[k0 d0] m Hd0 Hm IH];
    [done |].
  unfold JsMap.keys, JsMap.values in *. rewrite fmap_cons in Hwf.
  apply NoDup_cons in Hwf as [Hnin Hnd].
  rewrite fmap_cons. cbn [fst snd JsMap.get] in *.
  case_decide as Hk.
  - intros [= ->]. subst k0. rewrite filter_cons_True by done.
    f_equal. apply no_entry_for_absent_key; [done | by rewrite <- Hk].
  - intros Hget. rewrite filter_cons_False by congruence. by apply IH.
Qed.

Lemma getDevice_getUserDevices st k d :
  getDevice st k = Some d → d ∈ getUserDevices st (userId d).
Proof.
  intros Hin%jsmap_get_Some_elem. apply list_elem_of_filter. split; [done |].
  apply list_elem_of_fmap. by exists (k, d).
Qed.

(** C7. Idempotent re-registration: after two [device:register] calls with
    the same device id (from any sockets, with any names), the listing of
    the later caller's user holds exactly one entry for that id, the one
    written by the later call with its name; no other user's listing holds
    an entry for it. *)
Theorem reregister_single_entry st sid1 uid1 name1 now1
    sid2 uid2 name2 now2 dev :
  registry_ok st →
  let st1 :=
    (on_device_register (any := any) sid1 uid1 dev name1 now1 st).1 in
  let st2 :=
    (on_device_register (any := any) sid2 uid2 dev name2 now2 st1).1 in
  ∀ uid,
    filter (λ d, deviceId d = dev) (getUserDevices st2 uid) =
    if decide (uid = uid2)
    then [mkDevice sid2 dev name2 uid2 false None zero one now2]
    else [].
Proof.
  intros Hok st1 st2 uid.
  assert (registry_ok st2) as Hok2.
  { apply registry_ok_set; [by apply registry_ok_set | done]. }
  unfold getUserDevices. rewrite filter_comm_devices.
  erewrite one_entry_per_device; [| done | apply jsmap_get_set_eq].
  rewrite filter_cons, filter_nil. cbn [userId].
  destruct (decide (uid2 = uid)), (decide (uid = uid2)); congruence.
Qed.

(** C10. Reconnect-safe disconnect: once a device has re-registered over a
    new socket, the disconnect of a different (older) socket leaves the
    fresh entry in the registry and in the user's listing; the disconnect
    handler removes no entry whose [socketId] differs from the
    disconnecting socket's id. *)
Theorem reconnect_safe_disconnect st dev name uid newSock oldSock oldUid now :
  registry_ok st → newSock ≠ oldSock →
  let fresh := mkDevice newSock dev name uid false None zero one now in
  let st1 := (on_device_register (any := any) newSock uid dev name now st).1 in
  let st2 := (on_disconnect (any := any) oldSock oldUid st1).1 in
  getDevice st2 dev = Some fresh
  ∧ fresh ∈ getUserDevices st2 uid
  ∧ ∀ k d, getDevice st1 k = Some d → socketId d ≠ oldSock →
           getDevice st2 k = Some d.
Proof.
  intros Hok Hsock fresh st1 st2.
  assert (registry_ok st1) as Hok1 by by apply registry_ok_set.
  assert (∀ k d, getDevice st1 k = Some d → socketId d ≠ oldSock →
                 getDevice st2 k = Some d) as Hkeep.
  { intros k d Hget Hd. subst st2. unfold on_disconnect.
    destruct (getDeviceBySocketId st1 oldSock) as [x|] eqn:Hx; [| done].
    apply getDeviceBySocketId_Some in Hx as [Hxs [kx Hin]].
    destruct Hok1 as [Hwf Hkey].
    assert (deviceId x = kx) as Hkx.
    { rewrite Forall_forall in Hkey. apply (Hkey _ Hin). }
    cbn [fst]. unfold getDevice, with_devices. cbn [activeDevices].
    rewrite jsmap_get_delete_ne; [done |].
    rewrite Hkx. intros ->.
    pose proof (jsmap_elem_get _ _ _ Hwf Hin) as Hget'.
    unfold getDevice in Hget. congruence. }
  assert (getDevice st2 dev = Some fresh) as Hfresh.
  { apply Hkeep; [apply jsmap_get_set_eq | done]. }
  split_and!; [done | | done].
  apply (getDevice_getUserDevices _ _ _ Hfresh).
Qed.
End registry.

(** ** Command routing and authority requests *)
Section routing.
Context `{JsNumber number} {track any : Type}.
Import Server.
Implicit Types (st : ServerState (number := number) (track := track)).

(** C5. Command scoping: when the target of a [playback:command] is absent
    from the registry or owned by another user, the handler changes
    nothing, sends exactly one message, a [playback:error] to the sending
    socket, and no [playback:remoteCommand] goes to anyone. *)
Theorem command_scoping st sid uid (c : PlaybackCommand (any := any)) :
  (∀ d, getDevice st (targetDeviceId c) = Some d → userId d ≠ uid) →
  on_playback_command sid uid c st =
    (st, [(ToSocket sid, PlaybackError "Device not found or not authorized")])
  ∧ ∀ r cmd p from,
      (r, RemoteCommand cmd p from) ∉ (on_playback_command sid uid c st).2.
Proof.
  intros Hforeign.
  assert (on_playback_command sid uid c st =
    (st, [(ToSocket sid,
           PlaybackError "Device not found or not authorized")])) as ->.
  { unfold on_playback_command.
    destruct (getDevice st (targetDeviceId c)) as [d|] eqn:Hd; [| done].
    rewrite decide_True; [done | by apply Hforeign]. }
  split; [done |]. intros r cmd p from Hin.
  apply list_elem_of_singleton in Hin. discriminate.
Qed.

Lemma getActivePlayer_setActivePlayer st uid dev :
  getActivePlayer (setActivePlayer uid dev st) uid = dev.
Proof.
  unfold getActivePlayer, setActivePlayer. simpl. by rewrite lookup_insert_eq.
Qed.

Lemma on_playback_setActivePlayer_accept st sid uid dev :
  (∀ d x, dev = Some d → getDevice st d = Some x → userId x = uid) →
  on_playback_setActivePlayer (any := any) sid uid dev st =
    (setActivePlayer uid dev st, [(ToRoom uid, ActivePlayer dev)]).
Proof.
  intros Hown. unfold on_playback_setActivePlayer.
  destruct dev as [d|]; [| done].
  destruct (getDevice st d) as [x|] eqn:Hx; [| done].
  rewrite decide_False; [done |]. intros Hne. apply Hne. by eapply Hown.
Qed.

(** C8 (amended). [playback:setActivePlayer] checks ownership only: a
    device id that is [null], absent from the registry, or registered to
    the caller's user is accepted, the mapping is overwritten and the new
    value is broadcast to the user's room; a device id registered to a
    different user is rejected with a [playback:error] to the caller and
    the mapping is left as it was. *)
Theorem setActivePlayer_checks_owner_only st sid uid dev :
  let r := on_playback_setActivePlayer (any := any) sid uid dev st in
  ((∀ d x, dev = Some d → getDevice st d = Some x → userId x = uid) →
     r = (setActivePlayer uid dev st, [(ToRoom uid, ActivePlayer dev)])
     ∧ getActivePlayer r.1 uid = dev)
  ∧ (∀ d x, dev = Some d → getDevice st d = Some x → userId x ≠ uid →
     r = (st, [(ToSocket sid, PlaybackError "Device not authorized")])).
Proof.
  intros r. subst r. split.
  - intros Hown. rewrite on_playback_setActivePlayer_accept by done.
    split; [done | apply getActivePlayer_setActivePlayer].
  - intros d x -> Hx Hne. unfold on_playback_setActivePlayer.
    rewrite Hx. by rewrite decide_True.
Qed.
End routing.

(** ** Transfer *)
Section transfer.
Context `{JsNumber number} {track any : Type}.
Import Server.
Implicit Types (st : ServerState (number := number) (track := track)).
Implicit Types (c : Client.Client).

Lemma on_playback_transfer_state st sid uid to ws :
  (on_playback_transfer (any := any) sid uid to ws st).1 = st.
Proof.
  unfold on_playback_transfer.
  destruct (getDeviceBySocketId st sid) as [f|]; [| done].
  destruct (getDevice st to) as [t|]; [| done].
  case_decide; [done |]. by destruct ws, (currentTrack f).
Qed.

(** C2 (amended). What is reassigned first is the initiating client's own
    [activePlayerId].  [transferPlayback] on a connected client sets it to
    the target, then calls the stop-playback hook if one is installed, then
    arms a 50 ms timer, and sends nothing itself.  When the timer fires and
    the socket is no longer connected, nothing is sent at all; when it is
    still connected, [playback:transfer] goes out followed by
    [playback:setActivePlayer].  On the server the transfer handler leaves
    both maps untouched; the directory entry becomes the target only when
    the second message is handled, so the authority broadcast comes after
    whatever the transfer handler emitted. *)
Theorem transfer_order st c sid uid to ws :
  Client.connected c = true →
  (∀ d, getDevice st to = Some d → userId d = uid) →
  let '(c', effects) := Client.transferPlayback (any := any) to ws c in
  Client.activePlayerId c' = Some to
  ∧ effects =
      (if Client.onStopPlaybackRef c then [Client.CallOnStopPlayback] else [])
      ++ [Client.SetTimeout (Client.TransferTimer to ws) 50]
  ∧ Client.emitted effects = []
  ∧ (∀ later : Client.Client,
       let sent :=
         Client.emitted (any := any)
           (Client.fire (Client.TransferTimer to ws) later) in
       (Client.connected later = false → sent = [])
       ∧ (Client.connected later = true →
          sent = [Client.MsgTransfer to ws; Client.MsgSetActivePlayer (Some to)]
          ∧ run (Client.deliver sid uid <$> sent) st =
              (setActivePlayer uid (Some to) st,
               (on_playback_transfer sid uid to ws st).2
               ++ [(ToRoom uid, ActivePlayer (Some to))])))
  ∧ (on_playback_transfer (any := any) sid uid to ws st).1 = st
  ∧ getActivePlayer (setActivePlayer uid (Some to) st) uid = Some to.
Proof.
  intros Hconn Hown. unfold Client.transferPlayback. rewrite Hconn.
  cbn [Client.setActivePlayerId Client.activePlayerId]. split_and!.
  - done.
  - done.
  - by destruct (Client.onStopPlaybackRef c).
  - intros later. cbv zeta. cbn [Client.fire]. split; intros Hlater;
      rewrite Hlater; [done |]. split; [done |].
    cbn [Client.emitted omap list_omap fmap list_fmap Client.deliver run
         step].
    pose proof (on_playback_transfer_state st sid uid to ws) as Hst.
    destruct (on_playback_transfer sid uid to ws st) as [st1 out1].
    cbn [fst snd] in *. subst st1.
    rewrite on_playback_setActivePlayer_accept; [done |].
    intros d x [= <-]. apply Hown.
  - apply on_playback_transfer_state.
  - apply getActivePlayer_setActivePlayer.
Qed.

(** C3 (amended). A [playback:transfer] whose target is not registered is
    refused: the caller gets a [playback:error], no command is sent and
    the directory is unchanged.  The [playback:setActivePlayer] that the
    client sends right after it is accepted, because an unknown device id
    is not rejected there, and sets the authority to the target. *)
Theorem transfer_to_unregistered st c sid uid to ws :
  Client.connected c = true →
  getDevice st to = None →
  on_playback_transfer (any := any) sid uid to ws st =
    (st, [(ToSocket sid, PlaybackError "Transfer failed: device not found")])
  ∧ run (Client.deliver sid uid
           <$> Client.emitted (any := any)
                 (Client.fire (Client.TransferTimer to ws) c)) st =
      (setActivePlayer uid (Some to) st,
       [(ToSocket sid, PlaybackError "Transfer failed: device not found");
        (ToRoom uid, ActivePlayer (Some to))])
  ∧ getActivePlayer (setActivePlayer uid (Some to) st) uid = Some to.
Proof.
  intros Hconn Hto.
  assert (on_playback_transfer (any := any) sid uid to ws st =
    (st, [(ToSocket sid,
           PlaybackError "Transfer failed: device not found")])) as Htr.
  { unfold on_playback_transfer. rewrite Hto.
    by destruct (getDeviceBySocketId st sid). }
  split_and!; [done | |].
  - cbn [Client.fire]. rewrite Hconn.
    cbn [Client.emitted omap list_omap fmap list_fmap Client.deliver run
         step].
    rewrite Htr. unfold on_playback_setActivePlayer. by rewrite Hto.
  - apply getActivePlayer_setActivePlayer.
Qed.

(** C4 (amended). For a transfer that passes validation, the source device
    is sent [pause] with reason ["transferred"] exactly when [withState] is
    set and the source has a current track; it then follows the
    [transferPlayback] command sent to the target.  In every other case
    the handler sends nothing. *)
Theorem transfer_pause_condition st sid uid to ws fromDevice toDevice :
  getDeviceBySocketId st sid = Some fromDevice →
  getDevice st to = Some toDevice →
  userId toDevice = uid →
  let out := (on_playback_transfer (any := any) sid uid to ws st).2 in
  let pause_msg :=
    (ToSocket (socketId fromDevice),
     RemoteCommand CmdPause (Reason "transferred") None) in
  (pause_msg ∈ out ↔ ws = true ∧ is_Some (currentTrack fromDevice))
  ∧ (∀ tr, ws = true → currentTrack fromDevice = Some tr →
       out =
         [(ToSocket (socketId toDevice),
           RemoteCommand CmdTransferPlayback
             (TransferState tr (currentTime fromDevice)
                (isPlaying fromDevice) (volume fromDevice))
             (Some (deviceId fromDevice)));
          pause_msg])
  ∧ (ws = false ∨ currentTrack fromDevice = None → out = []).
Proof.
  intros Hfrom Hto Hown out pause_msg. subst out pause_msg.
  unfold on_playback_transfer. rewrite Hfrom, Hto.
  rewrite decide_False by (by intros ?).
  destruct ws, (currentTrack fromDevice) as [tr|]; cbn [snd]; split_and!.
  all: try (intros ? ? [= <-]; done).
  all: try (intros; done).
  all: try (intros [?|?]; done).
  - split; [by eauto |]. intros _. apply list_elem_of_further, list_elem_of_here.
  - split; [by intros ?%elem_of_nil | by intros [_ [? ?]]].
  - split; [by intros ?%elem_of_nil | by intros [? _]].
  - split; [by intros ?%elem_of_nil | by intros [? _]].
Qed.
End transfer.

(** ** Stale-device sweep *)
Section sweeping.
Context `{JsNumber number} {track any : Type}.
Import Server.
Implicit Types (st : ServerState (number := number) (track := track)).

(** C6. What the sweep does: every device whose [lastSeen] lies more than
    five minutes before the sweep is gone from every listing afterwards and
    the others stay, in order; the sweep emits no message at all, so no
    [devices:list] broadcast announces the removal. *)
Theorem sweep_evicts_without_broadcast st now :
  registry_ok st →
  let r := sweep (any := any) now st in
  r.2 = []
  ∧ (∀ uid, getUserDevices r.1 uid =
            filter (λ d, is_stale now d = false) (getUserDevices st uid))
  ∧ (∀ uid d, (lastSeen d < now - 5 * 60 * 1000)%Z → d ∉ getUserDevices r.1 uid).
Proof.
  intros [Hwf Hkey] r.
  assert (∀ uid, getUserDevices r.1 uid =
            filter (λ d, is_stale now d = false) (getUserDevices st uid))
    as Hlist.
  { intros uid. subst r. unfold sweep, getUserDevices. cbn [fst activeDevices with_devices].
    rewrite jsmap_sweep_filter by done.
    rewrite filter_comm_devices. f_equal.
    unfold JsMap.values. generalize (activeDevices st). clear.
    induction l as [|[k d] l IH]; [done |].
    rewrite fmap_cons, !filter_cons. cbn [snd].
    destruct (decide (is_stale now d = false)); by rewrite ?fmap_cons, IH. }
  split_and!; [done | done |].
  intros uid d Hold. rewrite Hlist. intros [Hd _]%list_elem_of_filter.
  unfold is_stale, staleAfterMs in Hd. apply Z.ltb_ge in Hd. lia.
Qed.
End sweeping.

(** ** Single authority *)
Section authority.
Context `{JsNumber number} {track any : Type}.
Import Server.
Implicit Types (st : ServerState (number := number) (track := track)).
Implicit Types (ev : Event (number := number) (track := track) (any := any)).
Implicit Types
  (evs : list (Event (number := number) (track := track) (any := any))).

Lemma last_authority_push_app uid
    (l1 l2 : list (Emit (number := number) (track := track) (any := any))) :
  last_authority_push uid (l1 ++ l2) =
  later_of (last_authority_push uid l2) (last_authority_push uid l1).
Proof. unfold last_authority_push. by rewrite omap_app, last_app. Qed.

(** Only an accepted [playback:setActivePlayer] writes the directory, and
    it pushes what it wrote. *)
Lemma step_authority ev st uid :
  userActivePlayer (step ev st).1 !! uid =
  later_of (last_authority_push uid (step ev st).2)
    (userActivePlayer st !! uid).
Proof.
  destruct ev; simpl.
  - done.
  - unfold on_playback_state.
    destruct (getDevice st _); [case_decide |]; done.
  - unfold on_playback_command.
    destruct (getDevice st _); [case_decide |]; done.
  - unfold on_playback_requestState.
    destruct (getDevice st _); [case_decide |]; done.
  - done.
  - unfold on_playback_transfer.
    destruct (getDeviceBySocketId st sid) as [f|]; [| done].
    destruct (getDevice st toDeviceId) as [t|]; [| done].
    case_decide; [done |]. by destruct withState, (currentTrack f).
  - assert (userActivePlayer (setActivePlayer uid0 dev st) !! uid =
            later_of
              (last_authority_push (number := number) (track := track)
                 (any := any) uid [(ToRoom uid0, ActivePlayer dev)])
              (userActivePlayer st !! uid)) as Hacc.
    { unfold last_authority_push, setActivePlayer. simpl.
      destruct (decide (uid0 = uid)) as [->|Hne]; simpl.
      - by rewrite lookup_insert_eq.
      - by rewrite lookup_insert_ne. }
    unfold on_playback_setActivePlayer.
    destruct dev as [d|]; [| done].
    destruct (getDevice st d); [case_decide |]; done.
  - unfold on_disconnect.
    destruct (getDeviceBySocketId st sid) as [d|]; done.
  - unfold on_device_heartbeat.
    destruct (getDevice st dev); [case_decide |]; done.
  - done.
Qed.




End authority.

(** ** Execute or forward *)
Section dispatch.
Context `{JsNumber number} {Track : Type}.
Import RemoteAware.
Implicit Types (c : Client.Client).
Implicit Types (a : UserAction (number := number) (Track := Track)).

Lemma actions_agent
    (es : list (Client.Effect
                  (any := Payload (number := number) (Track := Track)))) :
  actions (Agent <$> es) = Agent <$> es.
Proof.
  induction es as [|e es IH]; [done |].
  rewrite fmap_cons. unfold actions in *.
  cbn [List.filter is_console negb]. by rewrite IH.
Qed.

(** The wrappers differ in their log lines only. *)
Lemma invoke_actions cap a c :
  actions (invoke cap a c) =
  if Client.getIsActivePlayer c then [Controls (local_of a)]
  else if Client.truthy (Client.getActivePlayerId c) then
    Agent <$> Client.sendCommand (the_id (Client.getActivePlayerId c))
                (command_of a).1 (command_of a).2 c
  else [Controls (local_of a)].
Proof.
  destruct a; cbn [invoke local_of command_of fst snd];
    unfold pause, resume, play, next, previous, seek, setVolume,
      skipForward, skipBackward, playTrack, playTracks;
    unfold executeOrForward, inlined, sendCommand;
    destruct (Client.getIsActivePlayer c); try done;
    destruct (Client.truthy (Client.getActivePlayerId c));
    cbn [actions List.filter is_console negb]; try done;
    apply actions_agent.
Qed.

Lemma truthy_Some_iff s : Client.truthy (Some s) = true ↔ s ≠ "".
Proof.
  unfold Client.truthy. rewrite negb_true_iff.
  split.
  - intros Hf ->. done.
  - intros Hne. by apply String.eqb_neq.
Qed.

(** C9 (amended). For every user-facing playback control: if the getter
    [getIsActivePlayer] returns true the local control runs; otherwise, if
    [getActivePlayerId] returns a non-empty device id, the action goes to
    [sendCommand] for that id (one [playback:command] when the socket is
    connected) and the local control does not run; otherwise (the id is
    [null] or the empty string) the local control runs as the fallback.
    The outcome, console lines apart, is the same whatever values of
    [isActivePlayer] and [activePlayerId] the callback closed over. *)
Theorem dispatch_rule cap a c :
  let out := actions (invoke cap a c) in
  (Client.getIsActivePlayer c = true → out = [Controls (local_of a)])
  ∧ (∀ target, Client.getIsActivePlayer c = false →
       Client.getActivePlayerId c = Some target → target ≠ "" →
       out = (Agent <$> Client.sendCommand target (command_of a).1
                          (command_of a).2 c)
       ∧ (Controls (local_of a) ∉ out)
       ∧ (Client.connected c = true →
          out = [Agent (Client.SocketEmit
                   (Client.MsgCommand target (command_of a).1
                      (command_of a).2))]))
  ∧ (Client.getIsActivePlayer c = false →
     Client.truthy (Client.getActivePlayerId c) = false →
     out = [Controls (local_of a)])
  ∧ (∀ cap', actions (invoke cap' a c) = out).
Proof.
  intros out. subst out. rewrite invoke_actions. split_and!.
  - by intros ->.
  - intros target -> -> Hid. apply truthy_Some_iff in Hid as ->.
    cbn [the_id default]. split_and!; [done | |].
    + unfold Client.sendCommand.
      destruct (Client.connected c); simpl.
      * intros [=]%list_elem_of_singleton.
      * apply not_elem_of_nil.
    + intros Hconn. unfold Client.sendCommand. by rewrite Hconn.
  - by intros -> ->.
  - intros cap'. apply invoke_actions.
Qed.
End dispatch.

(** ** The properties on Alice's household *)
Section household.
Import Server Scenario.

Lemma home_registry_ok : registry_ok home.
Proof. apply (reachable_registry_ok household). Qed.

Example sweep_constants : sweepIntervalMs = 60000%Z ∧ staleAfterMs = 300000%Z.
Proof. split; reflexivity. Qed.

Example home_listing :
  deviceName <$> getUserDevices home "alice" = ["Phone"; "Laptop"]
  ∧ deviceName <$> getUserDevices home "bob" = ["TV"].
Proof. split; by vm_compute. Qed.

(** A command from the laptop to the phone is relayed to the phone's socket
    and names the laptop as its origin. *)
Example forward_next_to_phone :
  on_playback_command (any := Payload) "sock-laptop" "alice"
    {| targetDeviceId := "phone"; command := CmdNext; payload := None |} home
  = (home,
     [(ToSocket "sock-phone",
       RemoteCommand CmdNext (Forwarded None) (Some "laptop"))]).
Proof. by vm_compute. Qed.

(** The phone's report reached the registry and went to the other devices of
    the room. *)
Example phone_report_broadcast :
  (run household initial).2 !! 2%nat
  = Some (ToRoomExcept "alice" "sock-phone",
          StateUpdate (JsString "Phone") phone_report).
Proof. by vm_compute. Qed.



(** [transfer_order] for a transfer from the phone, whose stop hook is
    installed, to the laptop. *)
Lemma transfer_order_witness :
  Client.connected phone_player = true
  ∧ (∀ d, getDevice home "laptop" = Some d → userId d = "alice")
  ∧ Client.activePlayerId
      (Client.transferPlayback (any := Payload) "laptop" true phone_player).1
    = Some "laptop"
  ∧ (Client.transferPlayback (any := Payload) "laptop" true phone_player).2
    = [Client.CallOnStopPlayback;
       Client.SetTimeout (Client.TransferTimer "laptop" true) 50]
  ∧ run (transfer_from_phone "laptop" true) home =
      (setActivePlayer "alice" (Some "laptop") home,
       (on_playback_transfer "sock-phone" "alice" "laptop" true home).2
       ++ [(ToRoom "alice", ActivePlayer (Some "laptop"))])
  ∧ Client.emitted (any := Payload)
      (Client.fire (Client.TransferTimer "laptop" true)
         (Client.mount "phone" (Some "laptop"))) = [].
Proof.
  assert (∀ d, getDevice home "laptop" = Some d → userId d = "alice") as Hown.
  { intros d Hd. vm_compute in Hd. by injection Hd as <-. }
  pose proof (transfer_order (any := Payload) home phone_player
                "sock-phone" "alice" "laptop" true eq_refl Hown)
    as (Hid & Heff & _ & Hfire & _).
  split_and!; [done | done | exact Hid | exact Heff | |].
  - by apply (Hfire phone_agent).
  - by apply (Hfire (Client.mount "phone" (Some "laptop"))).
Defined.

(** C2, as stated, fails: when the phone transfers to the laptop, the
    transfer handler emits [transferPlayback] and [pause] while the
    directory has no authority for Alice, before and after the handler;
    the authority broadcast is the last message of the exchange. *)
Lemma transfer_commands_precede_authority :
  let r := on_playback_transfer (any := Payload)
             "sock-phone" "alice" "laptop" true home in
  r.2 =
    [(ToSocket "sock-laptop",
      RemoteCommand CmdTransferPlayback (TransferState "T" 30%Z true 1%Z)
        (Some "phone"));
     (ToSocket "sock-phone",
      RemoteCommand CmdPause (Reason "transferred") None)]
  ∧ getActivePlayer home "alice" = None
  ∧ getActivePlayer r.1 "alice" = None
  ∧ (run (transfer_from_phone "laptop" true) home).2 =
      r.2 ++ [(ToRoom "alice", ActivePlayer (Some "laptop"))].
Proof. split_and!; by vm_compute. Qed.

(** [transfer_to_unregistered] for a tablet that never registered. *)
Lemma transfer_to_unregistered_witness :
  Client.connected phone_agent = true
  ∧ getDevice home "tablet" = None
  ∧ on_playback_transfer (any := Payload)
      "sock-phone" "alice" "tablet" true home =
      (home,
       [(ToSocket "sock-phone",
         PlaybackError "Transfer failed: device not found")])
  ∧ getActivePlayer
      (run (transfer_from_phone "tablet" true) home).1 "alice" = Some "tablet".
Proof.
  assert (getDevice home "tablet" = None) as Hnone by by vm_compute.
  pose proof (transfer_to_unregistered (any := Payload) home phone_agent
                "sock-phone" "alice" "tablet" true eq_refl Hnone)
    as (Htr & Hrun & Hget).
  split_and!; [done | done | exact Htr |].
  unfold transfer_from_phone. rewrite Hrun. exact Hget.
Defined.

(** C3, as stated, fails: a transfer to the unregistered tablet puts a
    [playback:error] for the caller at the head of the log, and the
    transfer handler itself leaves Alice without an authority entry. *)
Lemma transfer_to_unregistered_reports_error :
  getDevice home "tablet" = None
  ∧ (run (transfer_from_phone "tablet" true) home).2 =
      [(ToSocket "sock-phone",
        PlaybackError "Transfer failed: device not found");
       (ToRoom "alice", ActivePlayer (Some "tablet"))]
  ∧ getActivePlayer
      (on_playback_transfer (any := Payload)
         "sock-phone" "alice" "tablet" true home).1 "alice" = None.
Proof. split_and!; by vm_compute. Qed.

(** [transfer_pause_condition] for the phone, which has a current track. *)
Lemma transfer_pause_condition_witness :
  (∃ fromDevice toDevice,
     getDeviceBySocketId home "sock-phone" = Some fromDevice
     ∧ getDevice home "laptop" = Some toDevice
     ∧ userId toDevice = "alice")
  ∧ (ToSocket "sock-phone", RemoteCommand CmdPause (Reason "transferred") None)
      ∈ (on_playback_transfer (any := Payload)
           "sock-phone" "alice" "laptop" true home).2.
Proof.
  pose (fromDevice :=
    mkDevice (number := Z) (track := string)
      "sock-phone" "phone" "Phone" "alice" true (Some "T") 30%Z 1%Z 3000).
  pose (toDevice :=
    mkDevice (number := Z) (track := string)
      "sock-laptop" "laptop" "Laptop" "alice" false None 0%Z 1%Z 2000).
  assert (getDeviceBySocketId home "sock-phone" = Some fromDevice) as Hfrom
    by by vm_compute.
  assert (getDevice home "laptop" = Some toDevice) as Hto by by vm_compute.
  split; [by exists fromDevice, toDevice |].
  apply (transfer_pause_condition (any := Payload) home "sock-phone" "alice"
           "laptop" true fromDevice toDevice Hfrom Hto eq_refl).
  split; [done | by eexists].
Defined.

(** C4, as stated, fails: a transfer from the phone to the laptop without
    state passes validation and authority moves to the laptop, yet the
    authority broadcast is the only message: no [pause] reaches the
    phone. *)
Lemma transfer_without_state_sends_no_pause :
  on_playback_transfer (any := Payload)
    "sock-phone" "alice" "laptop" false home = (home, [])
  ∧ run (transfer_from_phone "laptop" false) home =
      (setActivePlayer "alice" (Some "laptop") home,
       [(ToRoom "alice", ActivePlayer (Some "laptop"))]).
Proof. split; by vm_compute. Qed.

(** [command_scoping] for a command from Alice's laptop to Bob's TV. *)
Lemma command_scoping_witness :
  (∀ d, getDevice home (targetDeviceId next_on_tv) = Some d →
        userId d ≠ "alice")
  ∧ on_playback_command "sock-laptop" "alice" next_on_tv home =
      (home,
       [(ToSocket "sock-laptop",
         PlaybackError "Device not found or not authorized")]).
Proof.
  assert (∀ d, getDevice home (targetDeviceId next_on_tv) = Some d →
               userId d ≠ "alice") as Hforeign.
  { intros d Hd. vm_compute in Hd. injection Hd as <-. discriminate. }
  split; [exact Hforeign |].
  apply (command_scoping home "sock-laptop" "alice" next_on_tv Hforeign).
Defined.

(** [sweep_evicts_without_broadcast] on the household, five minutes and
    half a second after the laptop was last seen: the laptop is evicted
    and nothing is emitted, whereas the laptop's disconnect would have
    broadcast the new list. *)
Lemma sweep_evicts_without_broadcast_witness :
  registry_ok home
  ∧ (sweep (any := Payload) 302500 home).2 = []
  ∧ deviceId <$> getUserDevices home "alice" = ["phone"; "laptop"]
  ∧ deviceId <$> getUserDevices (sweep (any := Payload) 302500 home).1 "alice"
    = ["phone"]
  ∧ (on_disconnect (any := Payload) "sock-laptop" "alice" home).2 =
      broadcastDeviceList (sweep (any := Payload) 302500 home).1 "alice".
Proof.
  destruct (sweep_evicts_without_broadcast (any := Payload) home 302500
              home_registry_ok) as (Hout & Hlist & _).
  split_and!; [apply home_registry_ok | exact Hout | by vm_compute | |
               by vm_compute].
  rewrite Hlist. by vm_compute.
Defined.

(** [reregister_single_entry]: the phone registers again under a new
    name. *)
Lemma reregister_single_entry_witness :
  registry_ok home
  ∧ filter (λ d, deviceId d = "phone")
      (getUserDevices
         (on_device_register (any := Payload) "sock-phone" "alice" "phone"
            "Pixel" 6000
            (on_device_register (any := Payload) "sock-phone" "alice"
               "phone" "Phone" 5000 home).1).1
         "alice")
    = [mkDevice "sock-phone" "phone" "Pixel" "alice" false None 0%Z 1%Z 6000].
Proof.
  split; [apply home_registry_ok |].
  pose proof (reregister_single_entry (any := Payload) home
                "sock-phone" "alice" "Phone" 5000
                "sock-phone" "alice" "Pixel" 6000 "phone"
                home_registry_ok "alice") as Hthm.
  rewrite decide_True in Hthm by done. exact Hthm.
Defined.

(** [setActivePlayer_checks_owner_only]: the unregistered tablet is
    accepted, Bob's TV is refused. *)
Lemma setActivePlayer_checks_owner_only_witness :
  on_playback_setActivePlayer (any := Payload)
    "sock-phone" "alice" (Some "tablet") home =
    (setActivePlayer "alice" (Some "tablet") home,
     [(ToRoom "alice", ActivePlayer (Some "tablet"))])
  ∧ on_playback_setActivePlayer (any := Payload)
      "sock-phone" "alice" (Some "tv") home =
      (home, [(ToSocket "sock-phone", PlaybackError "Device not authorized")]).
Proof.
  split.
  - apply (setActivePlayer_checks_owner_only (any := Payload) home
             "sock-phone" "alice" (Some "tablet")).
    intros d x [= <-] Hx. by vm_compute in Hx.
  - pose (tv := mkDevice (number := Z) (track := string)
                  "sock-tv" "tv" "TV" "bob" false None 0%Z 1%Z 4000).
    apply (proj2 (setActivePlayer_checks_owner_only (any := Payload) home
                    "sock-phone" "alice" (Some "tv")) "tv" tv);
      [done | by vm_compute | discriminate].
Defined.

(** C8, as stated, fails: Alice asks for Bob's TV; the call is rejected
    with an error, nothing is broadcast and Alice's entry is not written. *)
Lemma setActivePlayer_rejects_foreign_device :
  let r := on_playback_setActivePlayer (any := Payload)
             "sock-phone" "alice" (Some "tv") home in
  r.2 = [(ToSocket "sock-phone", PlaybackError "Device not authorized")]
  ∧ userActivePlayer r.1 !! "alice" = None
  ∧ getActivePlayer r.1 "alice" ≠ Some "tv".
Proof. split_and!; by vm_compute. Qed.

(** [reconnect_safe_disconnect]: the phone reconnects on a new socket and
    the old socket then disconnects. *)
Lemma reconnect_safe_disconnect_witness :
  registry_ok home
  ∧ "sock-phone-2" ≠ "sock-phone"
  ∧ getDevice
      (on_disconnect (any := Payload) "sock-phone" "alice"
         (on_device_register (any := Payload) "sock-phone-2" "alice" "phone"
            "Phone" 7000 home).1).1
      "phone"
    = Some (mkDevice "sock-phone-2" "phone" "Phone" "alice" false None
              0%Z 1%Z 7000).
Proof.
  assert ("sock-phone-2" ≠ "sock-phone") as Hne by discriminate.
  split_and!; [apply home_registry_ok | exact Hne |].
  destruct (reconnect_safe_disconnect (any := Payload) home "phone" "Phone"
              "alice" "sock-phone-2" "sock-phone" "alice" 7000
              home_registry_ok Hne) as (Hfresh & _ & _).
  exact Hfresh.
Defined.

(** [dispatch_rule] on the laptop while the phone is the active player. *)
Lemma dispatch_rule_witness :
  let c :=
    Client.render
      (Client.on_activePlayer (any := Payload) (Some "phone") laptop_agent).1
  in
  Client.getIsActivePlayer c = false
  ∧ Client.getActivePlayerId c = Some "phone"
  ∧ RemoteAware.actions
      (RemoteAware.invoke (number := Z) (Track := string)
         captured_at_mount RemoteAware.UNext c)
    = [RemoteAware.Agent
         (Client.SocketEmit (Client.MsgCommand "phone" CmdNext None))].
Proof.
  intros c. split_and!; [done | done |].
  destruct (dispatch_rule (number := Z) (Track := string)
              captured_at_mount RemoteAware.UNext c)
    as (_ & Hfwd & _).
  apply (Hfwd "phone"); [done | done | discriminate | done].
Defined.

(** C9, as stated, fails: after an empty device id was pushed, the laptop
    is not the active player and its [activePlayerId] is not [null], yet
    [next] runs the local control and forwards nothing. *)
Lemma empty_active_player_id_runs_locally :
  Client.getIsActivePlayer laptop_after_empty_push = false
  ∧ Client.getActivePlayerId laptop_after_empty_push = Some ""
  ∧ RemoteAware.actions
      (RemoteAware.invoke (number := Z) (Track := string)
         captured_at_mount RemoteAware.UNext laptop_after_empty_push)
    = [RemoteAware.Controls RemoteAware.CtlNext].
Proof. split_and!; by vm_compute. Qed.
End household.

(** * Further properties of the coordinator *)

(** ** The registry under registration, disconnects and sweeps *)
Section more_registry.
Context `{JsNumber number} {track any : Type}.
Import Server.
Implicit Types (st : ServerState (number := number) (track := track)).
Implicit Types (d : PlaybackDevice (number := number) (track := track)).
Implicit Types (m : list (string * PlaybackDevice (number := number) (track := track))).

Lemma keyed_ids m :
  Forall (λ kd, deviceId kd.2 = kd.1) m →
  deviceId <$> JsMap.values m = JsMap.keys m.
Proof.
  unfold JsMap.values, JsMap.keys.
  induction 1 as [|[k d] m Hd Hm IH]; [done |].
  rewrite !fmap_cons. cbn [fst snd] in *. by rewrite Hd, IH.
Qed.

Lemma listed_iff st uid d :
  registry_ok st →
  d ∈ getUserDevices st uid ↔ userId d = uid ∧ getDevice st (deviceId d) = Some d.
Proof.
  intros [Hwf Hkey]. unfold getUserDevices, getDevice.
  rewrite list_elem_of_filter. split.
  - intros [Hu ([k d'] & -> & Hin)%list_elem_of_fmap]. split; [done |].
    rewrite Forall_forall in Hkey. rewrite (Hkey _ Hin).
    by apply jsmap_elem_get.
  - intros [Hu Hget%jsmap_get_Some_elem]. split; [done |].
    apply list_elem_of_fmap. by exists (deviceId d, d).
Qed.

(** X1. In every state the server can reach, a user's listing shows no
    device id twice, and a device is in the listing of a user exactly when
    the registry holds it under its own id with that user as owner. *)
Theorem listing_consistent
    (evs : list (Event (number := number) (track := track) (any := any))) uid :
  let st := (run evs initial).1 in
  NoDup (deviceId <$> getUserDevices st uid)
  ∧ ∀ d, d ∈ getUserDevices st uid
         ↔ userId d = uid ∧ getDevice st (deviceId d) = Some d.
Proof.
  intros st. pose proof (reachable_registry_ok evs) as Hok. fold st in Hok.
  split; [| intros d; by apply listed_iff].
  destruct Hok as [Hwf Hkey]. unfold getUserDevices.
  eapply sublist_NoDup.
  - unfold JsMap.wf in Hwf. rewrite <- (keyed_ids _ Hkey) in Hwf. exact Hwf.
  - apply fmap_sublist, sublist_filter.
Qed.

Lemma jsmap_set_absent {V} (m : list (string * V)) k v :
  k ∉ JsMap.keys m → JsMap.set k v m = m ++ [(k, v)].
Proof.
  unfold JsMap.keys. induction m as [|[k0 v0] m IH]; [done |].
  rewrite fmap_cons, not_elem_of_cons. cbn [fst]. intros [Hne Hnin].
  cbn [JsMap.set]. rewrite decide_False by done. by rewrite IH.
Qed.

Lemma jsmap_get_None_keys {V} (m : list (string * V)) k :
  JsMap.get k m = None ↔ k ∉ JsMap.keys m.
Proof.
  unfold JsMap.keys. induction m as [|[k0 v0] m IH].
  - split; [intros _; apply not_elem_of_nil | done].
  - rewrite fmap_cons, not_elem_of_cons. cbn [fst JsMap.get].
    case_decide; [split; [done | intros [? _]; congruence] |].
    rewrite IH. split; [by intros ? | by intros [_ ?]].
Qed.

Lemma filter_ext_in {A} (P Q : A → Prop)
    `{!∀ x, Decision (P x), !∀ x, Decision (Q x)} (l : list A) :
  (∀ x, x ∈ l → P x ↔ Q x) → filter P l = filter Q l.
Proof.
  induction l as [|x l IH]; [done |]. intros Hext.
  rewrite !filter_cons, IH.
  - destruct (decide (P x)) as [HP|HP], (decide (Q x)) as [HQ|HQ];
      try done; exfalso.
    + apply HQ, Hext; [apply list_elem_of_here | done].
    + apply HP, Hext; [apply list_elem_of_here | done].
  - intros y Hy. apply Hext. by apply list_elem_of_further.
Qed.

Lemma set_values_others m k d :
  Forall (λ kd, deviceId kd.2 = kd.1) m → deviceId d = k →
  filter (λ x, deviceId x ≠ k) (JsMap.values (JsMap.set k d m)) =
  filter (λ x, deviceId x ≠ k) (JsMap.values m).
Proof.
  unfold JsMap.values. intros Hkey Hd.
  induction Hkey as [|[k0 d0] m Hd0 Hm IH].
  - cbn [JsMap.set]. rewrite fmap_cons. cbn [snd].
    rewrite filter_cons_False; [done | by intros ?].
  - cbn [fst snd JsMap.set] in *. destruct (decide (k0 = k)) as [->|Hk].
    + rewrite !fmap_cons. cbn [snd].
      rewrite !filter_cons_False; [done | by intros ? | by intros ?].
    + rewrite !fmap_cons. cbn [snd].
      rewrite !filter_cons_True by congruence. by rewrite IH.
Qed.

Lemma set_other_users st k d uid :
  registry_ok st → deviceId d = k → userId d ≠ uid →
  filter (λ x, userId x = uid)
    (JsMap.values (JsMap.set k d (activeDevices st))) =
  filter (λ x, deviceId x ≠ k) (getUserDevices st uid).
Proof.
  intros Hok Hd Hu. unfold getUserDevices.
  rewrite filter_comm_devices, <- (set_values_others _ k d) by (apply Hok || done).
  rewrite list_filter_filter. apply filter_ext_in.
  intros x ([k' x'] & -> & Hin)%list_elem_of_fmap. cbn [snd].
  split; [| by intros [? _]]. intros Hx. split; [done |].
  intros Hk.
  pose proof (registry_ok_set st k d Hok Hd) as [Hwf' Hkey'].
  cbn [activeDevices with_devices] in *.
  assert (k' = k) as ->.
  { rewrite Forall_forall in Hkey'. pose proof (Hkey' _ Hin) as E.
    cbn [fst snd] in E. congruence. }
  pose proof (jsmap_elem_get _ _ _ Hwf' Hin) as Hget.
  rewrite jsmap_get_set_eq in Hget. congruence.
Qed.

(** X2. Registration on any well-formed registry: the new entry is what a
    lookup of the id returns, every other id is untouched, a device that was
    not registered before goes to the end of its user's listing, and any
    other user's listing changes only by losing that device id.  The one
    [devices:list] broadcast goes to the registering user's room. *)
Theorem register_effect st sid uid dev name now :
  registry_ok st →
  let fresh := mkDevice sid dev name uid false None zero one now in
  let r := on_device_register (any := any) sid uid dev name now st in
  getDevice r.1 dev = Some fresh
  ∧ (∀ k, k ≠ dev → getDevice r.1 k = getDevice st k)
  ∧ (getDevice st dev = None →
     getUserDevices r.1 uid = getUserDevices st uid ++ [fresh])
  ∧ (∀ other, other ≠ uid →
     getUserDevices r.1 other =
       filter (λ d, deviceId d ≠ dev) (getUserDevices st other))
  ∧ r.2 = [(ToRoom uid, DevicesList (summary None <$> getUserDevices r.1 uid))].
Proof.
  intros [Hwf Hkey] fresh r. subst r. unfold on_device_register.
  cbn [fst snd]. fold fresh. split_and!.
  - apply jsmap_get_set_eq.
  - intros k Hk. unfold getDevice. cbn. by apply jsmap_get_set_ne.
  - intros Hnone%jsmap_get_None_keys. unfold getUserDevices. cbn.
    rewrite jsmap_set_absent by done. unfold JsMap.values.
    rewrite fmap_app, filter_app. f_equal.
    rewrite fmap_cons. cbn [snd]. by rewrite filter_cons_True.
  - intros other Hother.
    apply (set_other_users st dev fresh other); [by split | done | by intros ?].
  - done.
Qed.

Lemma getDeviceBySocketId_first st sid :
  Forall (λ kd, deviceId kd.2 = kd.1) (activeDevices st) →
  match getDeviceBySocketId st sid with
  | Some d =>
      ∃ before after,
        activeDevices st = before ++ (deviceId d, d) :: after
        ∧ Forall (λ kd, socketId kd.2 ≠ sid) before
  | None => Forall (λ kd, socketId kd.2 ≠ sid) (activeDevices st)
  end.
Proof.
  unfold getDeviceBySocketId, JsMap.values.
  induction 1 as [|[k0 d0] m Hd0 Hm IH]; [by apply Forall_nil_2 |].
  rewrite fmap_cons. cbn [snd fst List.find] in *.
  destruct (decide (socketId d0 = sid)) as [Hs|Hs].
  - rewrite (bool_decide_eq_true_2 _ Hs). exists [], m. rewrite Hd0.
    split; [done | apply Forall_nil_2].
  - rewrite (bool_decide_eq_false_2 _ Hs).
    destruct (List.find _ m.*2) as [d|].
    + destruct IH as (before & after & -> & Hbefore).
      exists ((k0, d0) :: before), after. split; [done |].
      by apply Forall_cons.
    + by apply Forall_cons.
Qed.

(** X3. A disconnect removes exactly one device: the first entry, in the
    insertion order of the registry, that carries the socket's id; it removes
    nothing when no entry carries it.  This need not be the device that the
    socket registered first, because a registration that takes over an id
    keeps the position the id had.  Every other device, also one registered
    over the same socket, stays; the listing that is broadcast to the user's
    room is the one after the removal. *)
Theorem disconnect_effect st sid uid :
  registry_ok st →
  let r := on_disconnect (any := any) sid uid st in
  match getDeviceBySocketId st sid with
  | Some d =>
      socketId d = sid
      ∧ (∃ before after,
           activeDevices st = before ++ (deviceId d, d) :: after
           ∧ Forall (λ kd, socketId kd.2 ≠ sid) before)
      ∧ getDevice r.1 (deviceId d) = None
      ∧ (∀ k, k ≠ deviceId d → getDevice r.1 k = getDevice st k)
      ∧ length (activeDevices st) = S (length (activeDevices r.1))
      ∧ r.2 = [(ToRoom uid, DevicesList (summary None <$> getUserDevices r.1 uid))]
  | None =>
      Forall (λ kd, socketId kd.2 ≠ sid) (activeDevices st) ∧ r = (st, [])
  end.
Proof.
  intros [Hwf Hkey] r. subst r. unfold on_disconnect.
  pose proof (getDeviceBySocketId_first st sid Hkey) as Hfirst.
  destruct (getDeviceBySocketId st sid) as [d|] eqn:Hd; [| done].
  apply getDeviceBySocketId_Some in Hd as [Hsid [k Hin]].
  assert (deviceId d = k) as Hk.
  { rewrite Forall_forall in Hkey. apply (Hkey _ Hin). }
  cbn [fst snd]. unfold getDevice. cbn [activeDevices with_devices].
  split_and!; [done | done | apply jsmap_get_delete_eq | | | done].
  - intros k' Hk'. by apply jsmap_get_delete_ne.
  - rewrite Hk. clear Hk Hsid Hkey Hfirst. unfold JsMap.delete.
    unfold JsMap.wf, JsMap.keys in Hwf.
    induction (activeDevices st) as [|[k0 d0] m IH]; [by apply elem_of_nil in Hin |].
    rewrite fmap_cons in Hwf. apply NoDup_cons in Hwf as [Hnin Hnd].
    cbn [fst] in Hnin. rewrite filter_cons. cbn [fst length].
    apply elem_of_cons in Hin as [Heq|Hin].
    + injection Heq as <- <-. rewrite decide_False by (by intros ?).
      f_equal. f_equal. symmetry. clear IH.
      induction m as [|[k1 d1] m IH]; [done |].
      rewrite fmap_cons in Hnin. apply not_elem_of_cons in Hnin as [Hne Hnin].
      rewrite fmap_cons in Hnd. apply NoDup_cons in Hnd as [_ Hnd].
      cbn [fst] in Hne. rewrite filter_cons_True by (cbn; congruence).
      f_equal. by apply IH.
    + assert (k0 ≠ k) as Hne.
      { intros ->. apply Hnin. apply list_elem_of_fmap. by exists (k, d). }
      rewrite decide_True by done. cbn [length]. f_equal. by apply IH.
Qed.

Lemma stale_mono now1 now2 d :
  (now1 ≤ now2)%Z → is_stale now1 d = true → is_stale now2 d = true.
Proof.
  unfold is_stale. intros Hle H1%Z.ltb_lt. apply Z.ltb_lt. lia.
Qed.

Lemma sweep_devices st now :
  registry_ok st →
  activeDevices (sweep (any := any) now st).1 =
  filter (λ kd, is_stale now kd.2 = false) (activeDevices st).
Proof. intros [Hwf _]. cbn. by apply jsmap_sweep_filter. Qed.

(** X4. Sweeps compose: a sweep followed by a later sweep leaves the same
    registry as the later sweep alone, so sweeping twice at the same time is
    the same as sweeping once; a sweep never changes the authority map. *)
Theorem sweep_compose st now1 now2 :
  registry_ok st → (now1 ≤ now2)%Z →
  (sweep (any := any) now2 (sweep (any := any) now1 st).1).1
  = (sweep (any := any) now2 st).1
  ∧ userActivePlayer (sweep (any := any) now1 st).1 = userActivePlayer st.
Proof.
  intros [Hwf Hkey] Hle. split; [| done].
  unfold sweep. cbn [fst]. unfold with_devices.
  cbn [activeDevices userActivePlayer]. f_equal.
  rewrite (jsmap_sweep_filter (is_stale now1)) by done.
  rewrite !jsmap_sweep_filter by (done || by apply jsmap_wf_filter).
  rewrite list_filter_filter.
  apply list_filter_iff. intros [k d]. cbn [snd]. split; [by intros [? _] |].
  intros H2'. split; [done |].
  destruct (is_stale now1 d) eqn:H1; [| done].
  by rewrite (stale_mono _ _ _ Hle H1) in H2'.
Qed.

(** X5. A heartbeat keeps a device alive: once a device's owner has sent a
    heartbeat at time [t], every sweep up to five minutes after [t] leaves
    the device registered, with [lastSeen = t] and everything else as it
    was. *)
Theorem heartbeat_keeps_alive st sid uid dev d t now :
  registry_ok st → getDevice st dev = Some d → userId d = uid →
  (now - 5 * 60 * 1000 ≤ t)%Z →
  let st1 := (on_device_heartbeat (any := any) sid uid dev t st).1 in
  let st2 := (sweep (any := any) now st1).1 in
  getDevice st2 dev =
    Some (mkDevice (socketId d) (deviceId d) (deviceName d) (userId d)
            (isPlaying d) (currentTrack d) (currentTime d) (volume d) t)
  ∧ (on_device_heartbeat (any := any) sid uid dev t st).2 = [].
Proof.
  intros Hok Hd Hu Hfresh st1 st2.
  assert (registry_ok st1) as Hok1.
  { apply (step_registry_ok (EvHeartbeat sid uid dev t) st Hok). }
  subst st2 st1. unfold getDevice in *. rewrite sweep_devices by done.
  unfold on_device_heartbeat in *. unfold getDevice in *. rewrite Hd in *.
  rewrite decide_True in * by done. cbn [fst snd activeDevices with_devices] in *.
  split; [| done].
  set (d' := mkDevice _ _ _ _ _ _ _ _ t).
  apply jsmap_elem_get; [apply jsmap_wf_filter, Hok1 |].
  apply list_elem_of_filter. split.
  - cbn. unfold is_stale, staleAfterMs. cbn. apply Z.ltb_ge. lia.
  - apply jsmap_get_Some_elem, jsmap_get_set_eq.
Qed.
End more_registry.

(** ** What handlers send, and to whom *)
Section more_messages.
Context `{JsNumber number} {track any : Type}.
Import Server.
Implicit Types (st : ServerState (number := number) (track := track)).
Implicit Types (d : PlaybackDevice (number := number) (track := track)).
Implicit Types (ev : Event (number := number) (track := track) (any := any)).
Implicit Types
  (evs : list (Event (number := number) (track := track) (any := any))).

(** X6. A state report, a heartbeat or a state request that names a device
    which is not registered, or which belongs to another user, is dropped
    without a trace: the registry and the authority map stay as they are and
    nothing is sent, not even an error. *)
Theorem passive_messages_for_foreign_devices_are_dropped
    st sid uid dev (state : PlaybackStateUpdate (any := any)) now :
  (∀ d, getDevice st dev = Some d → userId d ≠ uid) →
  st_deviceId state = dev →
  on_playback_state sid uid state now st = (st, [])
  ∧ on_device_heartbeat (any := any) sid uid dev now st = (st, [])
  ∧ on_playback_requestState (any := any) sid uid dev st = (st, []).
Proof.
  intros Hforeign <-.
  unfold on_playback_state, on_device_heartbeat, on_playback_requestState.
  destruct (getDevice st (st_deviceId state)) as [d|] eqn:Hd; [| done].
  rewrite !decide_False; [done | by apply Hforeign..].
Qed.

Lemma jsmap_keys_set_present {V} (m : list (string * V)) k v :
  k ∈ JsMap.keys m → JsMap.keys (JsMap.set k v m) = JsMap.keys m.
Proof. intros Hin. rewrite jsmap_keys_set. by rewrite decide_True. Qed.

Lemma jsmap_get_Some_keys {V} (m : list (string * V)) k v :
  JsMap.get k m = Some v → k ∈ JsMap.keys m.
Proof.
  intros Hin%jsmap_get_Some_elem. apply list_elem_of_fmap. by exists (k, v).
Qed.

(** X7. A state report for a device of the reporting user is stored and
    fanned out: afterwards the registry holds the reported playback fields
    and the time of the report under the same id, name, socket and owner;
    no other entry and no position in the registry changes; and exactly one
    [playback:stateUpdate] goes to the user's room without the reporting
    socket.  It carries the report with every property it came with, under
    the registered name when the report has no [deviceName] of its own, and
    under the report's [deviceName] when it has one: that value replaces the
    registered name in the broadcast, not in the registry. *)
Theorem state_report_stored_and_broadcast
    st sid uid (state : PlaybackStateUpdate (any := any)) now d :
  getDevice st (st_deviceId state) = Some d → userId d = uid →
  let r := on_playback_state sid uid state now st in
  getDevice r.1 (st_deviceId state) =
    Some (mkDevice (socketId d) (deviceId d) (deviceName d) (userId d)
            (st_isPlaying state) (st_currentTrack state)
            (st_currentTime state) (st_volume state) now)
  ∧ (∀ k, k ≠ st_deviceId state → getDevice r.1 k = getDevice st k)
  ∧ JsMap.keys (activeDevices r.1) = JsMap.keys (activeDevices st)
  ∧ userActivePlayer r.1 = userActivePlayer st
  ∧ (st_deviceName state = None →
     r.2 = [(ToRoomExcept uid sid,
             StateUpdate (JsString (deviceName d)) state)])
  ∧ (∀ v, st_deviceName state = Some v →
     r.2 = [(ToRoomExcept uid sid, StateUpdate v state)]).
Proof.
  intros Hd Hu r. subst r. unfold on_playback_state. rewrite Hd.
  rewrite decide_True by done. cbn [fst snd]. unfold getDevice in *.
  cbn [activeDevices with_devices userActivePlayer]. split_and!;
    [apply jsmap_get_set_eq | | | done | by intros -> | by intros v ->].
  - intros k Hk. by apply jsmap_get_set_ne.
  - by eapply jsmap_keys_set_present, jsmap_get_Some_keys.
Qed.


(** X9. No handler reaches across users: whatever a handler emits on the
    connection of user [uid] is addressed to that socket, to the room of
    [uid] (with or without the sender), or to the socket of a device
    registered to [uid]; an error only ever goes to the socket that caused
    it; and the sweep emits nothing. *)
Theorem emits_stay_with_the_user ev st :
  match Conn.event_conn ev with
  | Some (sid, uid) =>
      ∀ to msg, (to, msg) ∈ (step ev st).2 →
        (to = ToSocket sid ∨ to = ToRoom uid ∨ to = ToRoomExcept uid sid
         ∨ ∃ k d, getDevice st k = Some d ∧ userId d = uid
                  ∧ to = ToSocket (socketId d))
        ∧ (∀ message, msg = PlaybackError message → to = ToSocket sid)
  | None => (step ev st).2 = []
  end.
Proof.
  destruct ev; cbn [Conn.event_conn step]; try done; intros to msg.
  - unfold on_device_register, broadcastDeviceList. cbn [snd].
    intros [= -> ->]%list_elem_of_singleton. split; [tauto | done].
  - unfold on_playback_state.
    destruct (getDevice st _); [case_decide |]; cbn [snd];
      try (by intros ?%elem_of_nil).
    intros [= -> ->]%list_elem_of_singleton. split; [tauto | done].
  - unfold on_playback_command.
    destruct (getDevice st (targetDeviceId c)) as [t|] eqn:Ht;
      [destruct (decide (userId t ≠ uid)) as [Hne|Heq] |]; cbn [snd];
      intros [= -> ->]%list_elem_of_singleton;
      (split; [| by intros ? [=]]); try tauto.
    do 3 right. exists (targetDeviceId c), t. split_and!; [done | | done].
    by destruct (decide (userId t = uid)).
  - unfold on_playback_requestState.
    destruct (getDevice st dev) as [t|] eqn:Ht; [case_decide |]; cbn [snd];
      try (by intros ?%elem_of_nil).
    intros [= -> ->]%list_elem_of_singleton. split; [| done].
    do 3 right. by exists dev, t.
  - unfold on_devices_list. cbn [snd].
    intros [= -> ->]%list_elem_of_singleton. split; [tauto | done].
  - unfold on_playback_transfer.
    destruct (getDeviceBySocketId st sid) as [f|] eqn:Hf;
      [destruct (getDevice st toDeviceId) as [t|] eqn:Ht;
       [destruct (decide (userId t ≠ uid)) as [Hne|Heq] |] |]; cbn [snd];
      try (intros [= -> ->]%list_elem_of_singleton;
           split; [tauto | by intros ? [=]]).
    destruct withState, (currentTrack f); cbn [snd];
      try (by intros ?%elem_of_nil).
    intros [[= -> ->]|[= -> ->]%list_elem_of_singleton]%elem_of_cons;
      (split; [| done]).
    + do 3 right. exists toDeviceId, t. split_and!; [done | | done].
      by destruct (decide (userId t = uid)).
    + left. f_equal. by apply getDeviceBySocketId_Some in Hf as [? _].
  - unfold on_playback_setActivePlayer.
    destruct dev as [t|]; [destruct (getDevice st t); [case_decide |] |];
      cbn [snd]; intros [= -> ->]%list_elem_of_singleton;
      (split; [tauto | by intros ? [=]]).
  - unfold on_disconnect.
    destruct (getDeviceBySocketId st sid);
      unfold broadcastDeviceList; cbn [snd];
      try (by intros ?%elem_of_nil).
    intros [= -> ->]%list_elem_of_singleton. split; [tauto | done].
  - unfold on_device_heartbeat.
    destruct (getDevice st dev); [case_decide |]; cbn [snd];
      by intros ?%elem_of_nil.
Qed.

Lemma step_keeps_authority ev st uid :
  Conn.sets_authority uid ev = false →
  userActivePlayer (step ev st).1 !! uid = userActivePlayer st !! uid.
Proof.
  intros Hev. rewrite step_authority.
  destruct ev; cbn [step]; cbn [Conn.sets_authority] in Hev; try done.
  - unfold on_playback_state.
    destruct (getDevice st _); [case_decide |]; done.
  - unfold on_playback_command.
    destruct (getDevice st _); [case_decide |]; done.
  - unfold on_playback_requestState.
    destruct (getDevice st _); [case_decide |]; done.
  - unfold on_playback_transfer.
    destruct (getDeviceBySocketId st sid) as [f|]; [| done].
    destruct (getDevice st toDeviceId) as [t|]; [| done].
    case_decide; [done |]. by destruct withState, (currentTrack f).
  - apply bool_decide_eq_false in Hev.
    unfold on_playback_setActivePlayer.
    destruct dev as [t|]; [destruct (getDevice st t); [case_decide |] |];
      cbn [snd]; unfold last_authority_push; cbn; try done;
      by rewrite decide_False.
  - unfold on_disconnect. destruct (getDeviceBySocketId st sid); done.
  - unfold on_device_heartbeat.
    destruct (getDevice st dev); [case_decide |]; done.
Qed.

(** X10. Authority belongs to one user and moves only on request: a run in
    which no event is a [playback:setActivePlayer] of user [uid] leaves the
    authority of [uid] where it was, whatever the other users do and
    whichever devices register, report, transfer, disconnect or are swept. *)
Theorem authority_moves_only_on_request evs st uid :
  forallb (λ ev, negb (Conn.sets_authority uid ev)) evs = true →
  getActivePlayer (run evs st).1 uid = getActivePlayer st uid.
Proof.
  unfold getActivePlayer. revert st.
  induction evs as [|ev evs IH]; intros st Hevs; [done |].
  cbn [forallb] in Hevs. apply andb_true_iff in Hevs as [Hev Hevs].
  apply negb_true_iff in Hev.
  cbn [run]. pose proof (step_keeps_authority ev st uid Hev) as Hstep.
  destruct (step ev st) as [st1 out1]. specialize (IH st1 Hevs).
  destruct (run evs st1) as [st2 out2]. cbn [fst] in *. by rewrite IH, Hstep.
Qed.





End more_messages.

(** ** The REST view *)
Section rest_view.
Context `{JsNumber number} {track : Type}.
Import Server.
Implicit Types (st : ServerState (number := number) (track := track)).

(** X12. The device route and the list route agree: on a well-formed
    registry [GET /devices/:deviceId] answers 200 with an entry exactly when
    that entry, under that id, is in the caller's [GET /devices] answer, and
    404 otherwise; another user's device is indistinguishable from a missing
    one. *)
Theorem rest_device_agrees_with_list st uid dev :
  registry_ok st →
  (∀ i, Rest.get_device st uid dev = Rest.Ok i
        ↔ ∃ d, d ∈ getUserDevices st uid ∧ deviceId d = dev ∧ i = Rest.info d)
  ∧ ((∀ d, d ∈ getUserDevices st uid → deviceId d ≠ dev) →
     Rest.get_device st uid dev = Rest.Failed 404 "Device not found").
Proof.
  intros Hok. unfold Rest.get_device. split.
  - intros i. split.
    + destruct (getDevice st dev) as [d|] eqn:Hd; [| done].
      case_decide as Hu; [done |]. intros [= <-]. exists d.
      assert (userId d = uid) by by destruct (decide (userId d = uid)).
      pose proof (getDevice_deviceId st dev d Hok Hd) as Hk.
      split_and!; [| done..]. apply listed_iff; [done |]. by rewrite Hk.
    + intros (d & [Hu Hget]%listed_iff & <- & ->); [| done].
      rewrite Hget. by rewrite decide_False by (by intros ?).
  - intros Hnone.
    destruct (getDevice st dev) as [d|] eqn:Hd; [| done].
    case_decide as Hu; [done |]. exfalso.
    assert (userId d = uid) by by destruct (decide (userId d = uid)).
    pose proof (getDevice_deviceId st dev d Hok Hd) as Hk.
    apply (Hnone d); [| done]. apply listed_iff; [done |]. by rewrite Hk.
Qed.

(** X13. The status route counts what the list route lists:
    [connectedDevices] is the length of the caller's device list, and
    [activePlayback] is set exactly when one of the listed devices reports
    that it is playing. *)
Theorem rest_status_matches_list st uid :
  ∃ devices status,
    Rest.get_devices st uid = Rest.Ok devices
    ∧ Rest.get_status st uid = Rest.Ok status
    ∧ Rest.available status = true
    ∧ Rest.connectedDevices status = length devices
    ∧ (Rest.activePlayback status = true
       ↔ ∃ i, i ∈ devices ∧ Rest.info_isPlaying i = true).
Proof.
  eexists _, _.
  split_and!; [reflexivity | reflexivity | done | by rewrite length_fmap |].
  cbn [Rest.activePlayback].
  rewrite existsb_exists. split.
  - intros (d & Hin%list_elem_of_In & Hp). exists (Rest.info d).
    split; [| done]. apply list_elem_of_fmap. by exists d.
  - intros (i & (d & -> & Hin)%list_elem_of_fmap & Hp). exists d.
    split; [by apply list_elem_of_In | done].
Qed.
End rest_view.

(** ** Connection authentication *)
Section authentication.
Context {User KeyId : Type}.
Context (findApiKey : string → Auth.Outcome (option (KeyId * User))).
Context (touchApiKey : KeyId → Auth.Outcome unit).
Context (redisGet : string → Auth.Outcome (option string)).
Context (sessionUserId : string → Auth.Outcome (option string)).
Context (findUser : string → Auth.Outcome (option User)).
Import Auth.

Local Abbreviation authenticate :=
  (Auth.authenticate findApiKey touchApiKey redisGet sessionUserId findUser).

(** X14. The middleware never invents a user.  A connection is accepted
    only with a user that one of the three lookups returned for a
    credential of the handshake: the owner of the presented API key (whose
    [lastUsed] is then written, and only then), the user named by the
    stored session, or the user with the presented user id. *)
Theorem accepted_user_comes_from_a_credential (h : Handshake) user touched :
  authenticate h = (Accept user, touched) →
  (∃ key id,
     or_else (auth_apiKey h) (header_x_api_key h) = Some key ∧ key ≠ ""
     ∧ findApiKey key = Returned (Some (id, user))
     ∧ touchApiKey id = Returned () ∧ touched = [id])
  ∨ (touched = []
     ∧ ((∃ sessionId data userId,
           auth_sessionId h = Some sessionId
           ∧ redisGet ("sess:" +:+ sessionId) = Returned (Some data)
           ∧ sessionUserId data = Returned (Some userId)
           ∧ findUser userId = Returned (Some user))
        ∨ (∃ userId, auth_userId h = Some userId
                     ∧ findUser userId = Returned (Some user)))).
Proof.
  unfold Auth.authenticate.
  destruct (by_api_key _ _ h) as [[[id u]|]|] eqn:Hkey; [| | by intros [=]].
  - intros [= <- <-]. left. revert Hkey. unfold by_api_key.
    destruct (or_else (auth_apiKey h) (header_x_api_key h)) as [key|] eqn:Hk;
      [| by cbn].
    destruct (Client.truthy (Some key)) eqn:Htruthy; [| by cbn].
    apply truthy_Some_iff in Htruthy. cbn.
    destruct (findApiKey key) as [[[id' u']|]|] eqn:Hfind;
      cbn; [| done | done].
    destruct (touchApiKey id') as [[]|] eqn:Htouch; cbn; [| done].
    intros [= <- <-]. by exists key, id'.
  - destruct (by_session _ _ _ h) as [[u|]|] eqn:Hsess; [| | by intros [=]].
    + intros [= <- <-]. right. split; [done |]. left.
      revert Hsess. unfold by_session.
      destruct (auth_sessionId h) as [sessionId|]; [| by cbn].
      destruct (Client.truthy (Some sessionId)); [| by cbn].
      cbn.
      destruct (redisGet _) as [[data|]|] eqn:Hget; cbn; [| done | done].
      destruct (negb (String.eqb data "")); [| done].
      destruct (sessionUserId data) as [[userId|]|] eqn:Hparse;
        cbn; [| done | done].
      destruct (negb (String.eqb userId "")); [| done].
      intros Hfind. by exists sessionId, data, userId.
    + destruct (by_user_id _ h) as [[u|]|] eqn:Huser;
        [| by intros [=] | by intros [=]].
      intros [= <- <-]. right. split; [done |]. right.
      revert Huser. unfold by_user_id.
      destruct (auth_userId h) as [userId|]; [| by cbn].
      destruct (Client.truthy (Some userId)); [| by cbn].
      cbn. intros Hfind. by exists userId.
Qed.

(** X15. Precedence and refusal.  A handshake without any non-empty
    credential is refused with "Authentication required" and no lookup
    result is needed for that; a presented API key that resolves is accepted
    as its owner whatever the session and user id fields hold; and whichever
    of the five awaited calls throws on the way (the key lookup, the write
    of [lastUsed], the session read, the session parse, the user lookup of
    the session or of the user id), the connection is refused with
    "Authentication failed" and no key counts as used.  Conversely that
    refusal only comes from a call that threw. *)
Theorem authentication_precedence (h : Handshake) :
  (Client.truthy (auth_apiKey h) = false →
   Client.truthy (header_x_api_key h) = false →
   Client.truthy (auth_sessionId h) = false →
   Client.truthy (auth_userId h) = false →
   authenticate h = (Refuse "Authentication required", []))
  ∧ (∀ key id user,
       or_else (auth_apiKey h) (header_x_api_key h) = Some key → key ≠ "" →
       findApiKey key = Returned (Some (id, user)) →
       touchApiKey id = Returned () →
       authenticate h = (Accept user, [id]))
  ∧ (∀ key, or_else (auth_apiKey h) (header_x_api_key h) = Some key →
       key ≠ "" →
       findApiKey key = Thrown
       ∨ (∃ id user, findApiKey key = Returned (Some (id, user))
                     ∧ touchApiKey id = Thrown) →
       authenticate h = (Refuse "Authentication failed", []))
  ∧ (by_api_key findApiKey touchApiKey h = Returned None →
     ∀ sessionId, auth_sessionId h = Some sessionId → sessionId ≠ "" →
       redisGet ("sess:" +:+ sessionId) = Thrown
       ∨ (∃ data,
            redisGet ("sess:" +:+ sessionId) = Returned (Some data)
            ∧ data ≠ ""
            ∧ (sessionUserId data = Thrown
               ∨ ∃ userId, sessionUserId data = Returned (Some userId)
                           ∧ userId ≠ "" ∧ findUser userId = Thrown)) →
       authenticate h = (Refuse "Authentication failed", []))
  ∧ (by_api_key findApiKey touchApiKey h = Returned None →
     by_session redisGet sessionUserId findUser h = Returned None →
     ∀ userId, auth_userId h = Some userId → userId ≠ "" →
       findUser userId = Thrown →
       authenticate h = (Refuse "Authentication failed", []))
  ∧ (∀ touched, authenticate h = (Refuse "Authentication failed", touched) →
       touched = []
       ∧ (by_api_key findApiKey touchApiKey h = Thrown
          ∨ by_session redisGet sessionUserId findUser h = Thrown
          ∨ by_user_id findUser h = Thrown)).
Proof.
  split_and!.
  - unfold Auth.authenticate, by_api_key, by_session, by_user_id.
    intros Ha Hh Hs Hu. unfold or_else. rewrite Ha, Hh, Hs, Hu. done.
  - unfold Auth.authenticate, by_api_key.
    intros key id user -> Hkey Hfind Htouch.
    apply truthy_Some_iff in Hkey as ->. cbn.
    rewrite Hfind. cbn. by rewrite Htouch.
  - unfold Auth.authenticate, by_api_key.
    intros key -> Hkey Hthrown.
    apply truthy_Some_iff in Hkey as ->. cbn.
    destruct Hthrown as [Hfind|(id & user & Hfind & Htouch)];
      rewrite Hfind; cbn; [done |]. by rewrite Htouch.
  - unfold Auth.authenticate. intros -> sessionId Hsid Hne Hthrown.
    unfold by_session. rewrite Hsid.
    apply truthy_Some_iff in Hne as ->. cbn.
    destruct Hthrown as [Hget|(data & Hget & Hdata & Hthrown)];
      rewrite Hget; cbn; [done |].
    apply truthy_Some_iff in Hdata. cbn in Hdata. rewrite Hdata.
    destruct Hthrown as [Hparse|(userId & Hparse & Huid & Hfind)];
      rewrite Hparse; cbn; [done |].
    apply truthy_Some_iff in Huid. cbn in Huid. rewrite Huid.
    by rewrite Hfind.
  - unfold Auth.authenticate. intros -> -> userId Huid Hne Hfind.
    unfold by_user_id. rewrite Huid.
    apply truthy_Some_iff in Hne as ->. cbn. by rewrite Hfind.
  - unfold Auth.authenticate. intros touched.
    destruct (by_api_key _ _ h) as [[[id u]|]|];
      [by intros [=] | | intros [= <-]; by auto].
    destruct (by_session _ _ _ h) as [[u|]|];
      [by intros [=] | | intros [= <-]; by auto].
    destruct (by_user_id _ h) as [[u|]|];
      [by intros [=] | by intros [=] | intros [= <-]; by auto].
Qed.
End authentication.

(** ** The client agent *)
Section more_client.
Context `{JsNumber number} {Track : Type}.
Implicit Types (c o : Client.Client).
Local Abbreviation Cargo := (RemoteAware.Payload (number := number) (Track := Track)).

(** X16. A client whose socket is not connected does nothing: a command is
    not sent, a transfer neither changes the local authority nor arms the
    timer, [becomeActivePlayer] changes nothing, a transfer timer that fires
    emits nothing; and a control that would be forwarded is dropped, it is
    neither sent nor run locally. *)
Theorem disconnected_client_is_inert c target cmd (p : option Cargo) to ws cap
    (a : RemoteAware.UserAction (number := number) (Track := Track)) :
  Client.connected c = false →
  Client.sendCommand target cmd p c = []
  ∧ Client.transferPlayback (any := Cargo) to ws c = (c, [])
  ∧ Client.becomeActivePlayer (any := Cargo) c = (c, [])
  ∧ Client.fire (any := Cargo) (Client.TransferTimer to ws) c = []
  ∧ (Client.getIsActivePlayer c = false →
     Client.truthy (Client.getActivePlayerId c) = true →
     RemoteAware.actions (RemoteAware.invoke cap a c) = []).
Proof.
  intros Hc. unfold Client.sendCommand, Client.transferPlayback,
    Client.becomeActivePlayer, Client.fire. rewrite Hc. split_and!; try done.
  intros Hactive Hid. rewrite invoke_actions, Hactive, Hid.
  unfold Client.sendCommand. by rewrite Hc.
Qed.

(** X17. An authority push calls at most one hook.  The new id is stored
    (and persisted unless it is [null] or empty); the became-active hook is
    called exactly when the pushed id equals the device's own id and the
    hook is installed; the stop hook exactly when the pushed id is a device
    id other than its own and the hook is installed. *)
Theorem push_calls_at_most_one_hook (dev : option string) c :
  let r := Client.on_activePlayer (any := Cargo) dev c in
  Client.activePlayerId r.1 = dev
  ∧ Client.persistedActivePlayerId r.1 = (if Client.truthy dev then dev else None)
  ∧ (Client.CallOnBecomeActivePlayer ∈ r.2
     ↔ dev = Client.currentDeviceIdRef c ∧ Client.onBecomeActivePlayerRef c = true)
  ∧ (Client.CallOnStopPlayback ∈ r.2
     ↔ dev ≠ None ∧ dev ≠ Client.currentDeviceIdRef c
       ∧ Client.onStopPlaybackRef c = true)
  ∧ length r.2 ≤ 1.
Proof.
  intros r. subst r. unfold Client.on_activePlayer. cbn [fst snd].
  split_and!; [done | done | | |].
  - destruct (decide (dev = Client.currentDeviceIdRef c)) as [He|He].
    + rewrite (bool_decide_eq_true_2 _ He).
      rewrite (bool_decide_eq_false_2 (dev ≠ _)) by (by intros ?).
      destruct (Client.onBecomeActivePlayerRef c); cbn [andb app].
      * split; [done | intros _; apply list_elem_of_here].
      * split; [by intros ?%elem_of_nil | by intros [_ ?]].
    + rewrite (bool_decide_eq_false_2 _ He). cbn [andb app].
      split; [| by intros [? _]].
      destruct (bool_decide (dev ≠ _) && _), (Client.onStopPlaybackRef c);
        intros Hin; try (by apply elem_of_nil in Hin).
      by apply list_elem_of_singleton in Hin.
  - destruct (decide (dev = Client.currentDeviceIdRef c)) as [He|He].
    + rewrite (bool_decide_eq_false_2 (dev ≠ _)) by (by intros ?).
      cbn [andb]. rewrite app_nil_r. split; [| by intros (_ & ? & _)].
      destruct (_ && _); intros Hin; [| by apply elem_of_nil in Hin].
      by apply list_elem_of_singleton in Hin.
    + rewrite (bool_decide_eq_false_2 _ He).
      rewrite (bool_decide_eq_true_2 (dev ≠ _)) by done. cbn [andb app].
      destruct (decide (dev = None)) as [Hn|Hn].
      * rewrite (bool_decide_eq_false_2 (dev ≠ None)) by (by intros ?).
        split; [by intros ?%elem_of_nil | by intros [? _]].
      * rewrite (bool_decide_eq_true_2 (dev ≠ None)) by done.
        destruct (Client.onStopPlaybackRef c).
        -- split; [done | intros _; apply list_elem_of_here].
        -- split; [by intros ?%elem_of_nil | by intros (_ & _ & ?)].
  - destruct (decide (dev = Client.currentDeviceIdRef c)) as [He|He].
    + rewrite (bool_decide_eq_false_2 (dev ≠ _)) by (by intros ?).
      cbn [andb]. rewrite app_nil_r. destruct (_ && _); cbn; lia.
    + rewrite (bool_decide_eq_false_2 _ He). cbn [andb app].
      destruct (_ && _), (Client.onStopPlaybackRef c); cbn; lia.
Qed.

(** X18. The authority a client last saw survives a reload.  What
    [persistActivePlayerId] writes is what [getPersistedActivePlayerId] reads
    back ([null] for [null] and for the empty id); the provider mounted from
    it starts with that [activePlayerId], so a device that was passive
    towards a non-empty id other than its own is passive again on its first
    render. *)
Theorem authority_survives_reload (id : option string) c w dev :
  let stored :=
    Storage.getPersistedActivePlayerId
      (Storage.persistActivePlayerId id (Some w)) in
  stored = Client.persistedActivePlayerId (Client.setActivePlayerId id c)
  ∧ stored = (if Client.truthy id then id else None)
  ∧ Client.activePlayerId (Client.mount dev stored) = stored
  ∧ (∀ other, id = Some other → other ≠ "" → other ≠ dev →
     Client.getIsActivePlayer (Client.mount dev stored) = false).
Proof.
  intros stored.
  assert (stored = if Client.truthy id then id else None) as Hs.
  { subst stored. unfold Storage.getPersistedActivePlayerId,
      Storage.persistActivePlayerId, Storage.getItem.
    cbn [fmap option_fmap option_map mbind option_bind].
    destruct (Client.truthy id) eqn:Hid; cbn [Storage.localStorage
      Storage.setItem Storage.removeItem].
    - rewrite lookup_insert_eq. destruct id; [done | discriminate].
    - by rewrite lookup_delete_eq. }
  split_and!; [by rewrite Hs | done | done |].
  intros other -> Hne Hdev. rewrite Hs.
  apply truthy_Some_iff in Hne. rewrite Hne.
  unfold Client.mount, Client.render, Client.getIsActivePlayer,
    Client.isActivePlayer. cbn.
  rewrite bool_decide_eq_false_2; [done | congruence].
Qed.
End more_client.

(** ** From a click to the other devices *)
Section end_to_end.
Context `{JsNumber number} {track Track : Type}.
Import Server.
Local Abbreviation Cargo := (RemoteAware.Payload (number := number) (Track := Track)).
Implicit Types (st : ServerState (number := number) (track := track)).
Implicit Types (c o : Client.Client).

(** X19. Choosing a device in the selector hands it the authority.  For a
    connected client and a chosen device id that no other user has
    registered: choosing the own device while already active sends nothing;
    in every other case the client's messages, handled by the server in the
    order sent, leave the directory pointing at the chosen device, the last
    authority broadcast to the user's room carries its id, and a device that
    handles that broadcast is the active player exactly when it is the
    chosen one. *)
Theorem selecting_a_device_hands_over_authority st c sid uid chosen :
  Client.connected c = true → chosen ≠ "" →
  (∀ d, getDevice st chosen = Some d → userId d = uid) →
  let r := Selector.handleDeviceClick (any := Cargo) chosen c in
  let served :=
    run (track := track) (Client.deliver sid uid <$> Selector.sends r.1 r.2) st in
  if bool_decide (Some chosen = Client.currentDeviceId c)
     && Client.isActivePlayer (Client.activePlayerId c) (Client.currentDeviceId c)
  then r = (c, []) ∧ served = (st, [])
  else
    Client.activePlayerId r.1 = Some chosen
    ∧ getActivePlayer served.1 uid = Some chosen
    ∧ last_authority_push uid served.2 = Some (Some chosen)
    ∧ ∀ o, Client.getIsActivePlayer (Selector.pushed (any := Cargo) (Some chosen) o)
           = bool_decide (Some chosen = Client.currentDeviceId o).
Proof.
  intros Hconn Hne Hown r served. subst served r.
  assert (Client.truthy (Some chosen) = true) as Htruthy
    by by apply truthy_Some_iff.
  assert (on_playback_setActivePlayer (any := Cargo) sid uid (Some chosen) st
          = (setActivePlayer uid (Some chosen) st,
             [(ToRoom uid, ActivePlayer (Some chosen))])) as Hset.
  { apply on_playback_setActivePlayer_accept. intros d x [= <-]. apply Hown. }
  assert (∀ o, Client.getIsActivePlayer
                 (Selector.pushed (any := Cargo) (Some chosen) o)
               = bool_decide (Some chosen = Client.currentDeviceId o)) as Hpush.
  { intros o. unfold Selector.pushed, Client.getIsActivePlayer.
    cbn [Client.render Client.isActivePlayerRef Client.on_activePlayer fst
         Client.setActivePlayerId Client.activePlayerId Client.currentDeviceId].
    unfold Client.isActivePlayer.
    by rewrite (bool_decide_eq_false_2 (Some chosen = None)). }
  unfold Selector.handleDeviceClick.
  destruct (decide (Some chosen = Client.currentDeviceId c)) as [Hme|Hother].
  - rewrite (bool_decide_eq_true_2 _ Hme). cbn [andb].
    destruct (Client.isActivePlayer _ _); cbn [negb]; [done |].
    unfold Client.becomeActivePlayer. rewrite Hconn, <- Hme, Htruthy.
    cbn [andb fst snd Selector.sends mbind list_bind app fmap list_fmap
         Client.deliver run step].
    rewrite Hset. cbn [fst snd app].
    split_and!; [done | apply getActivePlayer_setActivePlayer | | done].
    unfold last_authority_push. cbn. by rewrite decide_True.
  - rewrite (bool_decide_eq_false_2 _ Hother). cbn [andb].
    unfold Client.transferPlayback. rewrite Hconn. cbn [fst snd].
    assert (Selector.sends (any := Cargo)
              (Client.setActivePlayerId (Some chosen) c)
              ((if Client.onStopPlaybackRef c
                then [Client.CallOnStopPlayback] else [])
               ++ [Client.SetTimeout (Client.TransferTimer chosen true) 50])
            = [Client.MsgTransfer chosen true;
               Client.MsgSetActivePlayer (Some chosen)]) as ->.
    { unfold Selector.sends.
      destruct (Client.onStopPlaybackRef c); cbn; by rewrite Hconn. }
    cbn [fmap list_fmap Client.deliver run step].
    pose proof (on_playback_transfer_state (any := Cargo)
                  st sid uid chosen true) as Htr.
    destruct (on_playback_transfer sid uid chosen true st) as [st1 out1].
    cbn [fst] in Htr. subst st1. rewrite Hset. cbn [fst snd].
    split_and!; [done | apply getActivePlayer_setActivePlayer | | done].
    rewrite last_authority_push_app. unfold last_authority_push at 1. cbn.
    by rewrite decide_True.
Qed.


(** X21. The play/pause button of a listed device: for a connected client
    and a device registered to its user, the server relays exactly one
    command to that device's socket, [pause] when the entry shows the device
    playing and [play] otherwise, without a payload. *)
Theorem remote_play_pause_toggles st c sid uid dev playing d :
  Client.connected c = true →
  getDevice st dev = Some d → userId d = uid →
  run (track := track)
    (Client.deliver sid uid
       <$> Client.emitted (any := Cargo)
             (Selector.handleRemotePlayPause dev playing c)) st
  = (st, [(ToSocket (socketId d),
           RemoteCommand (if playing then CmdPause else CmdPlay)
             (Forwarded None) (deviceId <$> getDeviceBySocketId st sid))]).
Proof.
  intros Hconn Hd Hu.
  unfold Selector.handleRemotePlayPause, Client.sendCommand. rewrite Hconn.
  cbn [Client.emitted omap list_omap fmap list_fmap Client.deliver run step].
  unfold on_playback_command. cbn [targetDeviceId command payload].
  rewrite Hd. by rewrite decide_False by (by intros ?).
Qed.
End end_to_end.

(** ** The client's device list *)
Section device_list.
Context `{JsNumber number} {track any : Type}.
Import Server.
Implicit Types (st : ServerState (number := number) (track := track)).
Implicit Types
  (prev : list (DeviceList.RemoteDevice
                  (number := number) (track := track) (any := any))).
Implicit Types (state : PlaybackStateUpdate (number := number) (track := track)
                          (any := any)).

(** X22. A state update never adds, removes or reorders devices in the
    client's list: the ids stay as they are, entries of other devices are
    kept unchanged, an update from a device that is not in the list changes
    nothing, and if every entry was marked as current exactly when it
    carried the client's own id, this is still so afterwards. *)
Theorem state_update_keeps_the_list cur name state prev :
  let after := DeviceList.on_stateUpdate cur name state prev in
  DeviceList.deviceId <$> after = DeviceList.deviceId <$> prev
  ∧ (∀ e, e ∈ after → DeviceList.deviceId e ≠ st_deviceId state → e ∈ prev)
  ∧ ((∀ e, e ∈ prev → DeviceList.deviceId e ≠ st_deviceId state) →
     after = prev)
  ∧ (Forall (λ e, DeviceList.isCurrentDevice e
                  = bool_decide (Some (DeviceList.deviceId e) = cur)) prev →
     Forall (λ e, DeviceList.isCurrentDevice e
                  = bool_decide (Some (DeviceList.deviceId e) = cur)) after).
Proof.
  intros after. subst after. unfold DeviceList.on_stateUpdate. split_and!.
  - induction prev as [|e prev IH]; [done |].
    rewrite !fmap_cons, IH. f_equal.
    destruct (decide (DeviceList.deviceId e = st_deviceId state)) as [He|He].
    + by rewrite (bool_decide_eq_true_2 _ He).
    + by rewrite (bool_decide_eq_false_2 _ He).
  - intros e (e0 & -> & Hin)%list_elem_of_fmap.
    destruct (decide (DeviceList.deviceId e0 = st_deviceId state)) as [He|He].
    + rewrite (bool_decide_eq_true_2 _ He). by intros [].
    + by rewrite (bool_decide_eq_false_2 _ He).
  - intros Hnone. induction prev as [|e prev IH]; [done |].
    rewrite fmap_cons, IH.
    + rewrite bool_decide_eq_false_2; [done |]. apply Hnone, list_elem_of_here.
    + intros e' He'. by apply Hnone, list_elem_of_further.
  - intros Hall. apply Forall_fmap. eapply Forall_impl; [exact Hall |].
    intros e He. cbn.
    destruct (decide (DeviceList.deviceId e = st_deviceId state)) as [Hid|Hid].
    + rewrite (bool_decide_eq_true_2 _ Hid). cbn. by rewrite Hid.
    + by rewrite (bool_decide_eq_false_2 _ Hid).
Qed.

(** X23. [activePlayerState] is the listed entry of another device.  It is
    [null] whenever this device is the active player; when it is present it
    is the snapshot of a listed device whose id is the active player's and
    not the device's own.  The volume capture runs exactly when that
    snapshot has a track: the two other conditions of [shouldCapture] follow
    from it. *)
Theorem active_player_state_is_another_device
    (activePlayerId cur : option string) prev :
  let state := DeviceList.activePlayerState activePlayerId cur prev in
  let active := Client.isActivePlayer activePlayerId cur in
  (active = true → state = None)
  ∧ (∀ s, state = Some s →
       active = false
       ∧ ∃ e, e ∈ prev ∧ Some (DeviceList.deviceId e) = activePlayerId
              ∧ s = DeviceList.mkSnapshot (DeviceList.isPlaying e)
                      (DeviceList.currentTrack e) (DeviceList.currentTime e)
                      (DeviceList.volume e))
  ∧ (DeviceList.shouldCapture active activePlayerId state = true
     ↔ ∃ s tr, state = Some s ∧ DeviceList.snap_currentTrack s = Some tr).
Proof.
  intros state active.
  assert (∀ s, state = Some s →
            active = false ∧ Client.truthy activePlayerId = true
            ∧ ∃ e, e ∈ prev ∧ Some (DeviceList.deviceId e) = activePlayerId
                   ∧ s = DeviceList.mkSnapshot (DeviceList.isPlaying e)
                           (DeviceList.currentTrack e)
                           (DeviceList.currentTime e) (DeviceList.volume e))
    as Hsome.
  { intros s. subst state active. unfold DeviceList.activePlayerState.
    destruct (Client.truthy activePlayerId) eqn:Hid; [| done].
    destruct (decide (activePlayerId ≠ cur)) as [Hne|He].
    - rewrite (bool_decide_eq_true_2 _ Hne). cbn [andb].
      destruct (List.find _ prev) as [e|] eqn:Hfind; [| done].
      intros [= <-]. apply find_some in Hfind as [Hin He].
      apply bool_decide_eq_true in He. split_and!; [| done |].
      + unfold Client.isActivePlayer.
        rewrite (bool_decide_eq_false_2 (activePlayerId = cur)) by done.
        rewrite bool_decide_eq_false_2; [done |]. by intros ->.
      + exists e. by rewrite <- list_elem_of_In in Hin.
    - rewrite (bool_decide_eq_false_2 (activePlayerId ≠ cur)) by done. done. }
  split_and!.
  - intros Hactive. destruct state as [s|] eqn:Hs; [| done].
    destruct (Hsome s eq_refl) as [Hf _]. congruence.
  - intros s Hs. destruct (Hsome s Hs) as (? & _ & ?). by split.
  - unfold DeviceList.shouldCapture. split.
    + intros [[_ _]%andb_true_iff Htr%bool_decide_eq_true]%andb_true_iff.
      destruct state as [s|]; [| by destruct Htr].
      destruct Htr as [tr Htr]. by exists s, tr.
    + intros (s & tr & Hs & Htr). destruct (Hsome s Hs) as (-> & -> & _).
      rewrite Hs. cbn. rewrite Htr. by apply bool_decide_eq_true_2.
Qed.

Lemma on_stateUpdate_cons cur name state e prev :
  DeviceList.on_stateUpdate cur name state (e :: prev)
  = (if bool_decide (DeviceList.deviceId e = st_deviceId state) then
       DeviceList.mkRemote (st_deviceId state) name (st_isPlaying state)
         (st_currentTrack state) (st_currentTime state) (st_volume state)
         (bool_decide (Some (DeviceList.deviceId e) = cur))
         (later_of (st_queue state) (DeviceList.queue e))
         (later_of (st_queueIndex state) (DeviceList.queueIndex e))
         (DeviceList.spread (DeviceList.extra e)
            (filter (λ kv, kv.1 ≠ "isCurrentDevice") (st_extra state)))
     else e) :: DeviceList.on_stateUpdate cur name state prev.
Proof. done. Qed.

Lemma listed_list cur (l : list (PlaybackDevice (number := number) (track := track))) :
  DeviceList.on_devices_list cur (summary None <$> l)
  = DeviceList.listed (any := any) cur <$> l.
Proof.
  unfold DeviceList.on_devices_list. rewrite <- list_fmap_compose.
  by apply list_fmap_ext.
Qed.

Lemma untouched_entries cur name state
    (m : list (string * PlaybackDevice (number := number) (track := track))) uid :
  Forall (λ kd, deviceId kd.2 = kd.1) m →
  st_deviceId state ∉ JsMap.keys m →
  DeviceList.declared
    <$> DeviceList.on_stateUpdate cur name state
          (DeviceList.listed cur
             <$> filter (λ d, userId d = uid) (JsMap.values m))
  = DeviceList.with_name (st_deviceId state) name
      <$> (DeviceList.listed cur
             <$> filter (λ d, userId d = uid) (JsMap.values m)).
Proof.
  unfold JsMap.keys, JsMap.values.
  induction 1 as [|[k0 d0] m Hd0 Hm IH]; [done |].
  rewrite !fmap_cons. cbn [fst snd] in *. intros [Hne Hnin]%not_elem_of_cons.
  rewrite filter_cons. destruct (decide (userId d0 = uid)); [| by apply IH].
  rewrite !fmap_cons, on_stateUpdate_cons, fmap_cons, IH by done. f_equal.
  unfold DeviceList.with_name.
  rewrite !bool_decide_eq_false_2; [done | cbn; congruence..].
Qed.

(** What the client's list is after an update, next to a fresh list. *)
Lemma updated_list st sid uid state now d cur name :
  registry_ok st →
  getDevice st (st_deviceId state) = Some d → userId d = uid →
  DeviceList.declared
    <$> DeviceList.on_stateUpdate cur name state
          (DeviceList.listed cur <$> getUserDevices st uid)
  = DeviceList.with_name (st_deviceId state) name
      <$> (DeviceList.listed cur
             <$> getUserDevices (on_playback_state sid uid state now st).1 uid).
Proof.
  intros [Hwf Hkey] Hd Hu.
  unfold on_playback_state. rewrite Hd, decide_True by done.
  cbn [fst]. unfold getUserDevices, getDevice in *.
  cbn [activeDevices with_devices].
  set (d' := mkDevice _ _ _ _ _ _ _ _ now).
  revert Hwf Hd. unfold JsMap.wf, JsMap.keys, JsMap.values.
  induction Hkey as [|[k0 d0] m Hd0 Hm IH]; [done |].
  rewrite fmap_cons, NoDup_cons. cbn [fst snd JsMap.get JsMap.set] in *.
  intros [Hnin Hnd]. destruct (decide (k0 = st_deviceId state)) as [Hk|Hk].
  - intros [= ->]. rewrite !fmap_cons. cbn [snd].
    rewrite !filter_cons_True by done. rewrite !fmap_cons.
    rewrite on_stateUpdate_cons, fmap_cons.
    pose proof (untouched_entries cur name state m uid Hm) as Hrest.
    unfold JsMap.keys, JsMap.values in Hrest.
    rewrite Hrest by (by rewrite <- Hk). f_equal.
    cbn [DeviceList.listed DeviceList.deviceId].
    rewrite bool_decide_eq_true_2 by congruence.
    unfold DeviceList.with_name, DeviceList.declared. subst d'.
    unfold DeviceList.listed. cbn.
    rewrite (bool_decide_eq_true_2 (deviceId d = st_deviceId state))
      by congruence.
    by rewrite Hd0, Hk.
  - intros Hget. rewrite !fmap_cons. cbn [snd]. rewrite !filter_cons.
    destruct (decide (userId d0 = uid)); [| by apply IH].
    rewrite !fmap_cons, on_stateUpdate_cons, fmap_cons, IH by done. f_equal.
    unfold DeviceList.with_name.
    rewrite !bool_decide_eq_false_2; [done | cbn; congruence..].
Qed.

Lemma with_name_registered cur dev name
    (l : list (PlaybackDevice (number := number) (track := track))) :
  (∀ x, x ∈ l → deviceId x = dev → JsString (deviceName x) = name) →
  DeviceList.with_name (any := any) dev name <$> (DeviceList.listed cur <$> l)
  = DeviceList.listed cur <$> l.
Proof.
  induction l as [|x l IH]; [done |]. intros Hname.
  rewrite !fmap_cons, IH.
  - f_equal. unfold DeviceList.with_name. cbn [DeviceList.listed DeviceList.deviceId].
    case_bool_decide as Hx; [| done].
    by rewrite <- (Hname x (list_elem_of_here _ _) Hx).
  - intros y Hy. by apply Hname, list_elem_of_further.
Qed.

(** X24. The client's list keeps up with the registry.  Take a client whose
    list came from a [devices:list] broadcast of a well-formed registry.
    When the server accepts a state report and the client applies the
    [playback:stateUpdate] it receives, then its list, reduced to the
    properties of a list entry (the update leaves [queue], [queueIndex] and
    the undeclared properties of the report on the reporting device's
    entry), is the list of a fresh [devices:list] of the registry after the
    report, with the reporting device shown under the name of the broadcast.
    For a report without a [deviceName] of its own this is the fresh list
    itself; for a report with one, the client shows that value where the
    registry, and any later [devices:list], has the registered name. *)
Theorem client_list_follows_registry st sid uid state now d cur :
  registry_ok st →
  getDevice st (st_deviceId state) = Some d → userId d = uid →
  let r := on_playback_state sid uid state now st in
  let fresh :=
    DeviceList.on_devices_list cur (summary None <$> getUserDevices r.1 uid) in
  ∃ name,
    r.2 = [(ToRoomExcept uid sid, StateUpdate name state)]
    ∧ let after :=
        DeviceList.on_stateUpdate cur name state
          (DeviceList.on_devices_list cur
             (summary None <$> getUserDevices st uid)) in
      DeviceList.declared <$> after
      = DeviceList.with_name (st_deviceId state) name <$> fresh
      ∧ (st_deviceName state = None →
         name = JsString (deviceName d)
         ∧ DeviceList.declared <$> after = fresh)
      ∧ (∀ v, st_deviceName state = Some v → name = v).
Proof.
  intros Hok Hd Hu r fresh.
  exists (default (JsString (deviceName d)) (st_deviceName state)).
  assert (r.2 = [(ToRoomExcept uid sid,
                  StateUpdate
                    (default (JsString (deviceName d)) (st_deviceName state))
                    state)]) as Hout.
  { subst r. unfold on_playback_state. by rewrite Hd, decide_True by done. }
  split; [exact Hout |]. cbv zeta. subst fresh r. rewrite !listed_list.
  pose proof (updated_list st sid uid state now d cur
                (default (JsString (deviceName d)) (st_deviceName state))
                Hok Hd Hu) as Hupd.
  split_and!; [exact Hupd | | by intros v ->].
  intros Hnone. rewrite Hnone in *. cbn [default from_option] in *.
  split; [done |]. rewrite Hupd. apply with_name_registered.
  intros x Hx Hdev.
  pose proof (step_registry_ok (any := any) (EvState sid uid state now) st Hok)
    as Hok'.
  cbn [step] in Hok'. apply (listed_iff _ _ _ Hok') in Hx as [_ Hget].
  rewrite Hdev in Hget. revert Hget.
  unfold on_playback_state. rewrite Hd, decide_True by done.
  unfold getDevice. cbn [fst activeDevices with_devices].
  rewrite jsmap_get_set_eq. by intros [= <-].
Qed.
End device_list.

(** ** Device identity, names and liveness *)
Section identity.
Context `{JsNumber number} {track any : Type}.
Import Server.
Implicit Types (st : ServerState (number := number) (track := track)).
Implicit Types (w : Storage.Window).

Lemma device_prefix_truthy s : Client.truthy (Some ("device_" +:+ s)) = true.
Proof. done. Qed.

(** X25. The device id is created once and then stays: in a browser,
    [getOrCreateDeviceId] returns a non-empty id, touches no other storage
    key, and every later call returns the same id and leaves the storage as
    it is, whatever the clock and the random source say. *)
Theorem device_id_is_stable now rand w now' rand' :
  let r := Storage.getOrCreateDeviceId now rand (Some w) in
  r.1 ≠ ""
  ∧ Storage.getOrCreateDeviceId now' rand' r.2 = r
  ∧ (∀ k, k ≠ "lidify_device_id" →
       r.2 ≫= Storage.getItem k = Storage.getItem k w)
  ∧ (∀ stored, Storage.getItem "lidify_device_id" w = Some stored →
       stored ≠ "" → r = (stored, Some w)).
Proof.
  intros r. subst r. unfold Storage.getOrCreateDeviceId.
  destruct (Client.truthy (Storage.getItem "lidify_device_id" w)) eqn:Hid.
  - cbn [fst snd]. rewrite Hid.
    destruct (Storage.getItem "lidify_device_id" w) as [stored|] eqn:Hget;
      [| done].
    apply truthy_Some_iff in Hid. cbn [default from_option id].
    split_and!; [done | done | done |]. by intros ? [= <-].
  - cbn [fst snd]. split_and!.
    + done.
    + unfold Storage.getItem, Storage.setItem. cbn [Storage.localStorage].
      rewrite lookup_insert_eq. by rewrite device_prefix_truthy.
    + intros k Hk. unfold Storage.getItem, Storage.setItem. cbn.
      by rewrite lookup_insert_ne.
    + intros stored Hget Hne. apply truthy_Some_iff in Hne.
      rewrite Hget in Hid. congruence.
Qed.

(** X26. The device name.  [getDefaultDeviceName] never returns the empty
    string; a name stored by [setDeviceName] is what it returns from then
    on, and storing it leaves the device id alone; without a stored name, a
    user agent that matches [iPhone] is never named after the [Mac],
    [Windows] or [Linux] patterns that come later. *)
Theorem device_name_rules (wo : option Storage.Window) :
  Storage.getDefaultDeviceName wo ≠ ""
  ∧ (∀ name c w, name ≠ "" →
       let r := Setup.setDeviceName (number := number) (track := track)
                  (any := any) name c w in
       Storage.getDefaultDeviceName (Some r.1.2) = name
       ∧ Storage.getItem "lidify_device_id" r.1.2
         = Storage.getItem "lidify_device_id" w)
  ∧ (∀ w, Storage.getItem "lidify_device_name" w = None →
       Storage.test_i "iPhone" (Storage.userAgent w) = true →
       Storage.getDefaultDeviceName (Some w)
         ∈ ["Smart TV"; "Android Device"; "iPad"; "iPhone"]).
Proof.
  split_and!.
  - destruct wo as [w|]; [| done]. unfold Storage.getDefaultDeviceName.
    destruct (Client.truthy (Storage.getItem "lidify_device_name" w)) eqn:Hs.
    + destruct (Storage.getItem "lidify_device_name" w) as [n|]; [| done].
      by apply truthy_Some_iff in Hs.
    + repeat (match goal with
              | |- context [if ?b then _ else _] => destruct b
              end; try done).
  - intros name c w Hne r. subst r. unfold Setup.setDeviceName. cbn [fst snd].
    unfold Storage.getDefaultDeviceName, Storage.getItem, Storage.setItem.
    cbn [Storage.localStorage]. rewrite lookup_insert_eq.
    apply truthy_Some_iff in Hne. rewrite Hne.
    split; [done |]. by rewrite lookup_insert_ne.
  - intros w Hnone Hphone. unfold Storage.getDefaultDeviceName.
    rewrite Hnone, Hphone. cbn [Client.truthy].
    repeat (match goal with
            | |- context [if ?b then _ else _] => destruct b
            end; try set_solver).
Qed.

(** X27. Coming online.  When a client connects and its two messages are
    handled, the device is registered under its id with the name, socket
    and user of the connection and is in the user's listing; the server
    broadcasts the new listing to the user's room and then answers the
    list request on the client's socket; the list the client builds from
    that answer has the ids of the listing, in order, and marks as current
    exactly the entries with the client's own id. *)
Theorem coming_online st sid uid me name now :
  registry_ok st →
  let r := run (any := any)
             (Setup.deliver sid uid now <$> Setup.on_connect me name) st in
  let fresh := mkDevice sid me name uid false None zero one now in
  getDevice r.1 me = Some fresh
  ∧ fresh ∈ getUserDevices r.1 uid
  ∧ ∃ reply,
      r.2 = [(ToRoom uid, DevicesList (summary None <$> getUserDevices r.1 uid));
             (ToSocket sid, DevicesList reply)]
      ∧ DeviceList.deviceId
          <$> DeviceList.on_devices_list (any := any) (Some me) reply
        = deviceId <$> getUserDevices r.1 uid
      ∧ Forall (λ e, DeviceList.isCurrentDevice e = true
                     ↔ DeviceList.deviceId e = me)
          (DeviceList.on_devices_list (any := any) (Some me) reply).
Proof.
  intros Hok r fresh. subst r.
  cbn [Setup.on_connect fmap list_fmap Setup.deliver run step].
  unfold on_device_register, on_devices_list, broadcastDeviceList.
  cbn [fst snd app]. fold fresh.
  set (st' := with_devices _ st).
  assert (getDevice st' me = Some fresh) as Hget by apply jsmap_get_set_eq.
  split_and!; [done | apply (getDevice_getUserDevices _ _ _ Hget) |].
  eexists. split; [done |]. unfold DeviceList.on_devices_list. split.
  - rewrite <- !list_fmap_compose. by apply list_fmap_ext.
  - rewrite <- list_fmap_compose. apply Forall_fmap, Forall_forall.
    intros d _. cbn. rewrite bool_decide_eq_true. split; congruence.
Qed.

Lemma sweep_keeps_fresh st now k d :
  registry_ok st → getDevice st k = Some d → is_stale now d = false →
  getDevice (sweep (any := any) now st).1 k = Some d.
Proof.
  intros Hok Hd Hfresh. unfold getDevice in *. rewrite sweep_devices by done.
  apply jsmap_elem_get; [apply jsmap_wf_filter, Hok |].
  apply list_elem_of_filter. split; [done | by apply jsmap_get_Some_elem].
Qed.

Lemma sweeps_keep_fresh st (nows : list Z) k d :
  registry_ok st → getDevice st k = Some d →
  Forall (λ now, is_stale now d = false) nows →
  registry_ok (run (any := any) (EvSweep <$> nows) st).1
  ∧ getDevice (run (any := any) (EvSweep <$> nows) st).1 k = Some d.
Proof.
  intros Hok Hd Hall. revert st Hok Hd.
  induction Hall as [|now nows Hnow Hall IH]; intros st Hok Hd; [done |].
  rewrite fmap_cons. cbn [run step].
  pose proof (step_registry_ok (any := any) (EvSweep now) st Hok) as Hok1.
  pose proof (sweep_keeps_fresh st now k d Hok Hd Hnow) as Hd1.
  cbn [step] in Hok1. destruct (sweep now st) as [st1 out1]. cbn [fst] in *.
  specialize (IH st1 Hok1 Hd1).
  by destruct (run (EvSweep <$> nows) st1) as [st2 out2].
Qed.

Lemma run_app (evs1 evs2 : list (Event (number := number) (track := track)
                                  (any := any))) st :
  (run (evs1 ++ evs2) st).1 = (run evs2 (run evs1 st).1).1.
Proof.
  revert st. induction evs1 as [|ev evs1 IH]; intros st.
  - cbn. by destruct (run evs2 st).
  - cbn [app run]. destruct (step ev st) as [st1 out1].
    specialize (IH st1). destruct (run (evs1 ++ evs2) st1) as [st3 out3].
    destruct (run evs1 st1) as [st2 out2]. cbn [fst] in *.
    by destruct (run evs2 st2).
Qed.

Lemma run_single (ev : Event (number := number) (track := track) (any := any))
    st :
  (run [ev] st).1 = (step ev st).1.
Proof. cbn [run]. by destruct (step ev st). Qed.

(** X28. A device that keeps its heartbeat is never evicted.  Take a
    registered device of a connected client with a non-empty id.  Over any
    number of periods, each a heartbeat at the tick followed by sweeps that
    run no later than five minutes after that tick (the next tick comes
    after 30 seconds), the device stays in the registry and in its user's
    listing. *)
Theorem heartbeats_prevent_eviction st sid uid me d (rounds : list (Z * list Z)) :
  registry_ok st → getDevice st me = Some d → userId d = uid → me ≠ "" →
  Forall (λ r, Forall (λ now, (now - staleAfterMs ≤ r.1)%Z) r.2) rounds →
  let st' :=
    (run (any := any) (rounds ≫= Setup.keepalive_round sid uid (Some me)) st).1
  in
  (Setup.heartbeatIntervalMs < staleAfterMs)%Z
  ∧ ∃ d', getDevice st' me = Some d' ∧ d' ∈ getUserDevices st' uid
          ∧ deviceName d' = deviceName d ∧ socketId d' = socketId d.
Proof.
  intros Hok Hd Hu Hne Hrounds st'. split; [done |]. subst st'.
  assert (∃ d', getDevice st me = Some d' ∧ userId d' = uid
                ∧ deviceName d' = deviceName d ∧ socketId d' = socketId d)
    as Hinv by (by exists d).
  clear Hd Hu. revert st Hok Hinv.
  induction Hrounds as [|[t nows] rounds Hround Hrounds IH];
    intros st Hok (d' & Hd' & Hu' & Hn' & Hs').
  - cbn. exists d'. split_and!; try done.
    rewrite <- Hu'. by eapply getDevice_getUserDevices.
  - rewrite bind_cons, run_app. apply IH; clear IH.
    + apply run_registry_ok, Hok.
    + unfold Setup.keepalive_round, Setup.heartbeat. cbn [fst snd andb].
      apply truthy_Some_iff in Hne. rewrite Hne.
      cbn [default from_option id fmap list_fmap Setup.deliver].
      rewrite run_app, run_single.
      pose proof (step_registry_ok (any := any) (EvHeartbeat sid uid me t)
                    st Hok) as Hok1.
      cbn [step] in *. unfold on_device_heartbeat in *.
      rewrite Hd' in *. rewrite decide_True in * by done.
      cbn [fst snd] in *.
      set (d1 := mkDevice _ _ _ _ _ _ _ _ t) in *.
      set (st1 := with_devices _ st) in *.
      assert (getDevice st1 me = Some d1) as Hd1 by apply jsmap_get_set_eq.
      destruct (sweeps_keep_fresh st1 nows me d1 Hok1 Hd1) as [_ Hkept].
      { eapply Forall_impl; [exact Hround |]. intros now Hnow.
        cbn [fst] in Hnow. unfold is_stale. cbn. apply Z.ltb_ge. lia. }
      exists d1. by split_and!.
Qed.

(** X29. A client's own state report.  For a connected client with a
    non-empty device id, [broadcastState] sends one report under that id.
    While the device is registered to the client's user the server stores
    the reported fields and sends them, with the registered name, to the
    user's other sockets; once the device is gone from the registry (after
    an eviction, say) the report is dropped and nothing comes back, so the
    client is not told. *)
Theorem own_state_report st c sid uid me now playing tr time vol queue index :
  Client.connected c = true → Client.currentDeviceId c = Some me → me ≠ "" →
  let report := mkStateUpdate me playing tr time vol queue index None [] in
  let served :=
    run (any := any)
      (Setup.deliver sid uid now
         <$> Setup.broadcastState c playing tr time vol queue index) st in
  (∀ d, getDevice st me = Some d → userId d = uid →
     served.2 = [(ToRoomExcept uid sid,
                  StateUpdate (JsString (deviceName d)) report)]
     ∧ getDevice served.1 me =
         Some (mkDevice (socketId d) (deviceId d) (deviceName d) (userId d)
                 playing tr time vol now))
  ∧ (getDevice st me = None → served = (st, [])).
Proof.
  intros Hconn Hme Hne report served. subst served.
  unfold Setup.broadcastState. rewrite Hconn, Hme.
  apply truthy_Some_iff in Hne. rewrite Hne.
  cbn [andb default from_option id fmap list_fmap Setup.deliver run step].
  fold report. unfold on_playback_state. cbn [st_deviceId report]. split.
  - intros d Hd Hu. rewrite Hd, decide_True by done. cbn [fst snd app].
    split; [done |]. apply jsmap_get_set_eq.
  - intros Hd. by rewrite Hd.
Qed.
End identity.

(** ** The further properties on Alice's household *)
Section more_household.
Import Server Scenario Household.

Lemma register_effect_witness :
  registry_ok home
  ∧ getDevice home "tablet" = None
  ∧ deviceName
      <$> getUserDevices
            (on_device_register (any := Payload)
               "sock-tablet" "alice" "tablet" "Tablet" 5000 home).1 "alice"
    = ["Phone"; "Laptop"; "Tablet"].
Proof.
  assert (getDevice home "tablet" = None) as Hnone by by vm_compute.
  split_and!; [apply home_registry_ok | exact Hnone |].
  destruct (register_effect (any := Payload) home "sock-tablet" "alice"
              "tablet" "Tablet" 5000 home_registry_ok)
    as (_ & _ & Happend & _).
  rewrite (Happend Hnone), fmap_app. by vm_compute.
Defined.

Lemma shared_socket_ok : registry_ok shared_socket.
Proof. apply (reachable_registry_ok watch_takeover). Qed.

Lemma disconnect_effect_witness :
  registry_ok shared_socket
  ∧ deviceId <$> getUserDevices shared_socket "alice" = ["watch"; "phone"]
  ∧ deviceId <$> getDeviceBySocketId shared_socket "sock-phone" = Some "watch"
  ∧ getDevice
      (on_disconnect (any := Payload) "sock-phone" "alice" shared_socket).1
      "watch" = None
  ∧ socketId
      <$> getDevice
            (on_disconnect (any := Payload) "sock-phone" "alice"
               shared_socket).1 "phone"
    = Some "sock-phone".
Proof.
  pose proof (disconnect_effect (any := Payload) shared_socket "sock-phone"
                "alice" shared_socket_ok) as Hthm.
  cbv zeta in Hthm.
  assert (getDeviceBySocketId shared_socket "sock-phone"
          = Some (mkDevice "sock-phone" "watch" "Watch" "alice" false None
                    0%Z 1%Z 3000)) as Hd by by vm_compute.
  rewrite Hd in Hthm. destruct Hthm as (_ & _ & Hgone & Hkeep & _).
  split_and!; [apply shared_socket_ok | by vm_compute | by rewrite Hd
               | exact Hgone |].
  rewrite (Hkeep "phone") by discriminate. by vm_compute.
Defined.

Lemma sweep_compose_witness :
  registry_ok home ∧ (302500 ≤ 400000)%Z
  ∧ (sweep (any := Payload) 400000
       (sweep (any := Payload) 302500 home).1).1
    = (sweep (any := Payload) 400000 home).1.
Proof.
  assert (302500 ≤ 400000)%Z as Hle by lia.
  split_and!; [apply home_registry_ok | exact Hle |].
  apply (sweep_compose (any := Payload) home 302500 400000
           home_registry_ok Hle).
Defined.

Lemma heartbeat_keeps_alive_witness :
  registry_ok home
  ∧ (302500 - 5 * 60 * 1000 ≤ 290000)%Z
  ∧ lastSeen
      <$> getDevice
            (sweep (any := Payload) 302500
               (on_device_heartbeat (any := Payload)
                  "sock-laptop" "alice" "laptop" 290000 home).1).1 "laptop"
    = Some 290000%Z.
Proof.
  assert (302500 - 5 * 60 * 1000 ≤ 290000)%Z as Hle by lia.
  split_and!; [apply home_registry_ok | exact Hle |].
  assert (getDevice home "laptop"
          = Some (mkDevice "sock-laptop" "laptop" "Laptop" "alice" false None
                    0%Z 1%Z 2000)) as Hd by by vm_compute.
  destruct (heartbeat_keeps_alive (any := Payload) home "sock-laptop" "alice"
              "laptop" _ 290000 302500 home_registry_ok Hd eq_refl Hle)
    as [-> _].
  done.
Defined.

Lemma passive_messages_for_foreign_devices_are_dropped_witness :
  (∀ d, getDevice home "tv" = Some d → userId d ≠ "alice")
  ∧ on_playback_state "sock-phone" "alice" tv_forged 9000 home = (home, []).
Proof.
  assert (∀ d, getDevice home "tv" = Some d → userId d ≠ "alice") as Hforeign.
  { intros d Hd. vm_compute in Hd. injection Hd as <-. discriminate. }
  split; [exact Hforeign |].
  apply (passive_messages_for_foreign_devices_are_dropped home "sock-phone"
           "alice" "tv" tv_forged 9000 Hforeign eq_refl).
Defined.

Lemma state_report_stored_and_broadcast_witness :
  getDevice home "phone"
  = Some (mkDevice "sock-phone" "phone" "Phone" "alice" true (Some "T")
            30%Z 1%Z 3000)
  ∧ (on_playback_state "sock-phone" "alice" phone_paused 9000 home).2
    = [(ToRoomExcept "alice" "sock-phone",
        StateUpdate (JsString "Phone") phone_paused)]
  ∧ (on_playback_state "sock-phone" "alice" phone_renamed 9000 home).2
    = [(ToRoomExcept "alice" "sock-phone",
        StateUpdate (JsString "Kitchen") phone_renamed)]
  ∧ getDevice (on_playback_state "sock-phone" "alice" phone_renamed 9000 home).1
      "phone"
    = Some (mkDevice "sock-phone" "phone" "Phone" "alice" false (Some "T")
              45%Z 1%Z 9000).
Proof.
  assert (getDevice home "phone"
          = Some (mkDevice "sock-phone" "phone" "Phone" "alice" true (Some "T")
                    30%Z 1%Z 3000)) as Hd by by vm_compute.
  destruct (state_report_stored_and_broadcast home "sock-phone" "alice"
              phone_paused 9000 _ Hd eq_refl) as (_ & _ & _ & _ & Hplain & _).
  destruct (state_report_stored_and_broadcast home "sock-phone" "alice"
              phone_renamed 9000 _ Hd eq_refl)
    as (Hget & _ & _ & _ & _ & Hnamed).
  split_and!; [exact Hd | by apply Hplain | by apply Hnamed | exact Hget].
Defined.

Lemma emits_stay_with_the_user_witness :
  (ToSocket "sock-laptop",
   RemoteCommand CmdTransferPlayback (TransferState "T" 30%Z true 1%Z)
     (Some "phone"))
    ∈ (step (any := Payload) (EvTransfer "sock-phone" "alice" "laptop" true)
         home).2
  ∧ (ToSocket "sock-laptop" = ToSocket "sock-phone"
     ∨ ToSocket "sock-laptop" = ToRoom "alice"
     ∨ ToSocket "sock-laptop" = ToRoomExcept "alice" "sock-phone"
     ∨ ∃ k d, getDevice home k = Some d ∧ userId d = "alice"
              ∧ ToSocket "sock-laptop" = ToSocket (socketId d)).
Proof.
  assert ((ToSocket "sock-laptop",
           RemoteCommand CmdTransferPlayback (TransferState "T" 30%Z true 1%Z)
             (Some "phone"))
            ∈ (step (any := Payload)
                 (EvTransfer "sock-phone" "alice" "laptop" true) home).2)
    as Hin by (vm_compute; apply list_elem_of_here).
  split; [exact Hin |].
  apply (emits_stay_with_the_user (any := Payload)
           (EvTransfer "sock-phone" "alice" "laptop" true) home _ _ Hin).
Defined.

Lemma authority_moves_only_on_request_witness :
  getActivePlayer home_phone_active "alice" = Some "phone"
  ∧ getActivePlayer
      (run (any := Payload)
         [EvDisconnect "sock-phone" "alice"; EvSweep 400000;
          EvSetActivePlayer "sock-tv" "bob" (Some "tv")]
         home_phone_active).1 "alice"
    = Some "phone".
Proof.
  assert (getActivePlayer home_phone_active "alice" = Some "phone") as Hauth
    by by vm_compute.
  split; [exact Hauth |].
  rewrite (authority_moves_only_on_request (any := Payload)
             [EvDisconnect "sock-phone" "alice"; EvSweep 400000;
              EvSetActivePlayer "sock-tv" "bob" (Some "tv")]
             home_phone_active "alice" eq_refl).
  exact Hauth.
Defined.



Lemma rest_device_agrees_with_list_witness :
  registry_ok home
  ∧ (∀ d, d ∈ getUserDevices home "alice" → deviceId d ≠ "tv")
  ∧ Rest.get_device home "alice" "tv" = Rest.Failed 404 "Device not found".
Proof.
  assert (∀ d, d ∈ getUserDevices home "alice" → deviceId d ≠ "tv") as Hnone.
  { intros d Hd. vm_compute in Hd.
    repeat (apply elem_of_cons in Hd as [->|Hd]; [discriminate |]).
    by apply elem_of_nil in Hd. }
  split_and!; [apply home_registry_ok | exact Hnone |].
  apply (rest_device_agrees_with_list home "alice" "tv" home_registry_ok),
    Hnone.
Defined.

Lemma accepted_user_comes_from_a_credential_witness :
  authenticate key_and_session = (Auth.Accept Alice, [7%nat])
  ∧ findApiKey "key-alice" = Auth.Returned (Some (7%nat, Alice)).
Proof.
  assert (authenticate key_and_session = (Auth.Accept Alice, [7%nat])) as Hacc
    by reflexivity.
  split; [exact Hacc |].
  destruct (accepted_user_comes_from_a_credential findApiKey touchApiKey
              redisGet sessionUserId findUser key_and_session Alice [7%nat]
              Hacc) as [(key & id & Hkey & _ & Hfind & _ & Hid)|[Hnil _]].
  - injection Hkey as <-. by injection Hid as <-.
  - discriminate.
Defined.

Lemma authentication_precedence_witness :
  authenticate no_credentials = (Auth.Refuse "Authentication required", [])
  ∧ authenticate key_and_session = (Auth.Accept Alice, [7%nat])
  ∧ authenticate broken_key = (Auth.Refuse "Authentication failed", [])
  ∧ authenticate garbled_session = (Auth.Refuse "Authentication failed", []).
Proof.
  split_and!.
  - by apply (authentication_precedence findApiKey touchApiKey redisGet
                sessionUserId findUser no_credentials).
  - destruct (authentication_precedence findApiKey touchApiKey redisGet
                sessionUserId findUser key_and_session) as (_ & Hkey & _).
    apply (Hkey "key-alice" 7%nat Alice); [done | discriminate | done | done].
  - destruct (authentication_precedence findApiKey touchApiKey redisGet
                sessionUserId findUser broken_key) as (_ & _ & Hthrown & _).
    apply (Hthrown "key-broken"); [done | discriminate | by left].
  - destruct (authentication_precedence findApiKey touchApiKey redisGet
                sessionUserId findUser garbled_session)
      as (_ & _ & _ & Hsession & _).
    apply (Hsession eq_refl "s-garbled"); [done | discriminate |].
    right. exists "garbled". split_and!; [done | discriminate | by left].
Defined.

Lemma disconnected_client_is_inert_witness :
  Client.connected (Client.mount "laptop" None) = false
  ∧ Client.transferPlayback (any := Payload) "phone" true
      (Client.mount "laptop" None)
    = (Client.mount "laptop" None, []).
Proof.
  split; [done |].
  by destruct (disconnected_client_is_inert (number := Z) (Track := string)
                 (Client.mount "laptop" None) "phone" CmdNext None "phone" true
                 captured_at_mount RemoteAware.UNext eq_refl)
    as (_ & Htransfer & _).
Defined.

Lemma authority_survives_reload_witness :
  Client.getIsActivePlayer
    (Client.mount "laptop"
       (Storage.getPersistedActivePlayerId
          (Storage.persistActivePlayerId (Some "phone") (Some phone_browser))))
  = false.
Proof.
  destruct (authority_survives_reload (Some "phone") laptop_agent phone_browser
              "laptop") as (_ & _ & _ & Hpassive).
  apply (Hpassive "phone"); [done | discriminate | discriminate].
Defined.

Lemma selecting_a_device_hands_over_authority_witness :
  Client.connected laptop_agent = true
  ∧ (∀ d, getDevice home "phone" = Some d → userId d = "alice")
  ∧ getActivePlayer
      (run (track := string)
         (Client.deliver "sock-laptop" "alice"
            <$> Selector.sends
                  (Selector.handleDeviceClick (any := Payload)
                     "phone" laptop_agent).1
                  (Selector.handleDeviceClick (any := Payload)
                     "phone" laptop_agent).2) home).1 "alice"
    = Some "phone".
Proof.
  assert (∀ d, getDevice home "phone" = Some d → userId d = "alice") as Hown.
  { intros d Hd. vm_compute in Hd. by injection Hd as <-. }
  split_and!; [done | exact Hown |].
  pose proof (selecting_a_device_hands_over_authority (Track := string) home
                laptop_agent "sock-laptop" "alice" "phone" eq_refl
                ltac:(discriminate) Hown) as Hthm.
  cbv zeta in Hthm.
  rewrite (bool_decide_eq_false_2 (Some "phone" = _)) in Hthm
    by discriminate.
  apply Hthm.
Defined.


Lemma remote_play_pause_toggles_witness :
  Client.connected laptop_agent = true
  ∧ run (track := string)
      (Client.deliver "sock-laptop" "alice"
         <$> Client.emitted (any := Payload)
               (Selector.handleRemotePlayPause "phone" true laptop_agent)) home
    = (home,
       [(ToSocket "sock-phone",
         RemoteCommand CmdPause (Forwarded None) (Some "laptop"))]).
Proof.
  split; [done |].
  rewrite (remote_play_pause_toggles (Track := string) home laptop_agent
             "sock-laptop" "alice" "phone" true
             (mkDevice "sock-phone" "phone" "Phone" "alice" true (Some "T")
                30%Z 1%Z 3000) eq_refl) by by vm_compute.
  by vm_compute.
Defined.

Lemma state_update_keeps_the_list_witness :
  (∀ e, e ∈ laptop_list → DeviceList.deviceId e ≠ "tablet")
  ∧ DeviceList.on_stateUpdate (Some "laptop") (JsString "Tablet")
      tablet_report laptop_list
    = laptop_list.
Proof.
  assert (∀ e, e ∈ laptop_list → DeviceList.deviceId e ≠ "tablet") as Hnone.
  { intros e He. vm_compute in He.
    repeat (apply elem_of_cons in He as [->|He]; [discriminate |]).
    by apply elem_of_nil in He. }
  split; [exact Hnone |].
  by apply (state_update_keeps_the_list (Some "laptop") (JsString "Tablet")
              tablet_report laptop_list).
Defined.

Lemma active_player_state_is_another_device_witness :
  DeviceList.activePlayerState (Some "phone") (Some "laptop") laptop_list
  = Some (DeviceList.mkSnapshot true (Some "T") 30%Z 1%Z)
  ∧ Client.isActivePlayer (Some "phone") (Some "laptop") = false
  ∧ DeviceList.shouldCapture
      (Client.isActivePlayer (Some "phone") (Some "laptop")) (Some "phone")
      (DeviceList.activePlayerState (Some "phone") (Some "laptop") laptop_list)
    = true.
Proof.
  assert (DeviceList.activePlayerState (Some "phone") (Some "laptop")
            laptop_list
          = Some (DeviceList.mkSnapshot true (Some "T") 30%Z 1%Z)) as Hs
    by by vm_compute.
  destruct (active_player_state_is_another_device (Some "phone")
              (Some "laptop") laptop_list) as (_ & Hsome & Hcap).
  split_and!; [exact Hs | apply (Hsome _ Hs) |].
  apply Hcap. by eexists _, _.
Defined.

Lemma client_list_follows_registry_witness :
  registry_ok home
  ∧ DeviceList.declared
      <$> DeviceList.on_stateUpdate (Some "laptop") (JsString "Phone")
            phone_paused laptop_list
    = DeviceList.on_devices_list (Some "laptop")
        (summary None
           <$> getUserDevices
                 (on_playback_state "sock-phone" "alice" phone_paused 9000
                    home).1 "alice")
  ∧ DeviceList.deviceName
      <$> DeviceList.on_stateUpdate (Some "laptop") (JsString "Kitchen")
            phone_renamed laptop_list
    = [JsString "Kitchen"; JsString "Laptop"]
  ∧ DeviceList.extra
      <$> DeviceList.on_stateUpdate (Some "laptop") (JsString "Kitchen")
            phone_renamed laptop_list
    = [[("shuffle", JsString "on")]; []].
Proof.
  assert (getDevice home "phone"
          = Some (mkDevice "sock-phone" "phone" "Phone" "alice" true (Some "T")
                    30%Z 1%Z 3000)) as Hd by by vm_compute.
  destruct (client_list_follows_registry home "sock-phone" "alice" phone_paused
              9000 _ (Some "laptop") home_registry_ok Hd eq_refl)
    as (name & _ & _ & Hplain & _).
  destruct (Hplain eq_refl) as [-> Hfresh].
  split_and!; [apply home_registry_ok | exact Hfresh | by vm_compute
               | by vm_compute].
Defined.

Lemma device_id_is_stable_witness :
  (Storage.getOrCreateDeviceId 1700000000000 "k3j9x2q1z" (Some phone_browser)).1
  = "device_1700000000000_k3j9x2q1z"
  ∧ Storage.getOrCreateDeviceId 1800000000000 "zzzzzzzzz"
      (Storage.getOrCreateDeviceId 1700000000000 "k3j9x2q1z"
         (Some phone_browser)).2
    = Storage.getOrCreateDeviceId 1700000000000 "k3j9x2q1z"
        (Some phone_browser).
Proof.
  split; [by vm_compute |].
  apply (device_id_is_stable 1700000000000 "k3j9x2q1z" phone_browser
           1800000000000 "zzzzzzzzz").
Defined.

Lemma device_name_rules_witness :
  Storage.getItem "lidify_device_name" phone_browser = None
  ∧ Storage.test_i "iPhone" (Storage.userAgent phone_browser) = true
  ∧ Storage.getDefaultDeviceName (Some phone_browser) = "iPhone"
  ∧ Storage.getDefaultDeviceName
      (Some (Setup.setDeviceName (number := Z) (track := string)
               (any := Payload) "Kitchen" laptop_agent phone_browser).1.2)
    = "Kitchen".
Proof.
  destruct (device_name_rules (number := Z) (track := string) (any := Payload)
              (Some phone_browser)) as (_ & Hsaved & Hphone).
  split_and!; [done | by vm_compute | by vm_compute |].
  apply (Hsaved "Kitchen" laptop_agent phone_browser). discriminate.
Defined.

Lemma coming_online_witness :
  registry_ok home
  ∧ deviceName
      <$> getUserDevices
            (run (any := Payload)
               (Setup.deliver "sock-tablet" "alice" 5000
                  <$> Setup.on_connect "tablet" "Tablet") home).1 "alice"
    = ["Phone"; "Laptop"; "Tablet"]
  ∧ getDevice
      (run (any := Payload)
         (Setup.deliver "sock-tablet" "alice" 5000
            <$> Setup.on_connect "tablet" "Tablet") home).1 "tablet"
    = Some (mkDevice "sock-tablet" "tablet" "Tablet" "alice" false None
              0%Z 1%Z 5000).
Proof.
  split_and!; [apply home_registry_ok | by vm_compute |].
  destruct (coming_online (any := Payload) home "sock-tablet" "alice" "tablet"
              "Tablet" 5000 home_registry_ok) as (Hget & _).
  exact Hget.
Defined.

Lemma heartbeats_prevent_eviction_witness :
  registry_ok home
  ∧ Forall (λ r, Forall (λ now, (now - staleAfterMs ≤ r.1)%Z) r.2)
      laptop_rounds
  ∧ is_Some
      (getDevice
         (run (any := Payload)
            (laptop_rounds
               ≫= Setup.keepalive_round "sock-laptop" "alice" (Some "laptop"))
            home).1 "laptop").
Proof.
  assert (Forall (λ r, Forall (λ now, (now - staleAfterMs ≤ r.1)%Z) r.2)
            laptop_rounds) as Hrounds.
  { unfold laptop_rounds, staleAfterMs.
    repeat (apply Forall_cons; split); try apply Forall_nil_2; cbn; lia. }
  split_and!; [apply home_registry_ok | exact Hrounds |].
  destruct (heartbeats_prevent_eviction (any := Payload) home "sock-laptop"
              "alice" "laptop"
              (mkDevice "sock-laptop" "laptop" "Laptop" "alice" false None
                 0%Z 1%Z 2000)
              laptop_rounds home_registry_ok)
    as (_ & d' & Hd' & _); [by vm_compute | done | discriminate | exact Hrounds |].
  by exists d'.
Defined.

Lemma own_state_report_witness :
  Client.connected phone_agent = true
  ∧ Client.currentDeviceId phone_agent = Some "phone"
  ∧ getDevice (sweep (any := Payload) 400000 home).1 "phone" = None
  ∧ run (any := Payload)
      (Setup.deliver "sock-phone" "alice" 400100
         <$> Setup.broadcastState phone_agent true (Some "T") 45%Z 1%Z
               None None)
      (sweep (any := Payload) 400000 home).1
    = ((sweep (any := Payload) 400000 home).1, []).
Proof.
  assert (getDevice (sweep (any := Payload) 400000 home).1 "phone" = None)
    as Hgone by by vm_compute.
  split_and!; [done | done | exact Hgone |].
  apply (own_state_report (any := Payload) _ phone_agent "sock-phone" "alice"
           "phone" 400100 true (Some "T") 45%Z 1%Z None None eq_refl eq_refl
           ltac:(discriminate)), Hgone.
Defined.
End more_household.
